(** * database_postgres: the development-database bootstrap scripts

    A shallow embedding of [init_db.py] (the schema initializer and the
    connection-info emitter) and of [test_db.py] (the schema validator),
    with the properties of their behaviour.

    The scripts are sequences of calls into three services: the file
    system ([os], [open]), the SQLite engine behind Python's [sqlite3]
    module, and standard output.  Each service is a component of one
    [world]; a Python function is a computation that threads the world
    and either returns or raises.

    The services are modelled after their documentation: [sqlite3] with
    its default transaction control (a transaction is opened implicitly
    before INSERT, UPDATE, DELETE and REPLACE and before nothing else, so
    PRAGMA and CREATE statements take effect at once), a connection used
    as a context manager (commit on return, rollback on an exception, no
    close), and SQLite's reading of CREATE ... IF NOT EXISTS, INSERT OR
    REPLACE and LIKE.  One process acts on the world at a time. *)

From Stdlib Require Import ZArith Ascii String List Bool Lia.
From stdpp Require Import base option list gmap sets strings sorting pretty.

Local Open Scope Z_scope.

(** ** Python values and control *)

Module Py.

(** The exceptions the scripts can meet: [sqlite3.Error] (with its
    subclasses [OperationalError], [DatabaseError]) and [OSError].  The
    payload is the text [str(e)] gives. *)
Inductive exn :=
| SqliteError (msg : string)
| OSError (msg : string).

Definition exn_str (e : exn) : string :=
  match e with SqliteError m => m | OSError m => m end.

Definition is_sqlite_error (e : exn) : bool :=
  match e with SqliteError _ => true | OSError _ => false end.

Inductive res (A : Type) :=
| Ok (a : A)
| Raise (e : exn).
Arguments Ok {A} a.
Arguments Raise {A} e.

(** A computation over a state [S]: the state survives an exception,
    as a Python object mutated before a [raise] stays mutated. *)
Definition M (S A : Type) : Type := S -> res A * S.

Definition ret {S A} (a : A) : M S A := fun s => (Ok a, s).
Definition raise {S A} (e : exn) : M S A := fun s => (Raise e, s).
Definition bind {S A B} (m : M S A) (k : A -> M S B) : M S B :=
  fun s => match m s with
           | (Ok a, s') => k a s'
           | (Raise e, s') => (Raise e, s')
           end.

(** [try: body / except <class> as e: handler e]; an exception outside
    the class passes through. *)
Definition try_except {S A} (body : M S A) (catches : exn -> bool)
    (handler : exn -> M S A) : M S A :=
  fun s => match body s with
           | (Ok a, s') => (Ok a, s')
           | (Raise e, s') => if catches e then handler e s' else (Raise e, s')
           end.

(** [with cm as x: body], for a context manager whose [__exit__] does
    not swallow the exception: [leave] is told whether the body raised,
    and the body's outcome is the statement's outcome unless [leave]
    itself raises. *)
Definition with_ {S X A} (enter : M S X) (leave : X -> bool -> M S unit)
    (body : X -> M S A) : M S A :=
  fun s => match enter s with
           | (Raise e, s1) => (Raise e, s1)
           | (Ok x, s1) =>
               match body x s1 with
               | (Ok a, s2) =>
                   match leave x false s2 with
                   | (Ok _, s3) => (Ok a, s3)
                   | (Raise e, s3) => (Raise e, s3)
                   end
               | (Raise e, s2) =>
                   match leave x true s2 with
                   | (Ok _, s3) => (Raise e, s3)
                   | (Raise e', s3) => (Raise e', s3)
                   end
               end
           end.

(** *** [str.strip()]

    A character is a code point below 256; the white space of
    [str.isspace] in that range is TAB..CR, FS..US, SPACE, NEL and
    NBSP. *)
Definition is_space (c : ascii) : bool :=
  let n := nat_of_ascii c in
  ((9 <=? n) && (n <=? 13) || (28 <=? n) && (n <=? 32)
   || (n =? 133) || (n =? 160))%nat.

Fixpoint lstrip (s : string) : string :=
  match s with
  | EmptyString => EmptyString
  | String c s' => if is_space c then lstrip s' else s
  end.

Fixpoint rstrip (s : string) : string :=
  match s with
  | EmptyString => EmptyString
  | String c s' =>
      match rstrip s' with
      | EmptyString => if is_space c then EmptyString else String c EmptyString
      | r => String c r
      end
  end.

Definition strip (s : string) : string := rstrip (lstrip s).

(** Truthiness of a [str]: the empty string is false. *)
Definition truthy (s : string) : bool :=
  match s with EmptyString => false | String _ _ => true end.

(** [sep.join(items)] *)
Fixpoint join (sep : string) (items : list string) : string :=
  match items with
  | [] => ""
  | [x] => x
  | x :: rest => x +:+ sep +:+ join sep rest
  end.

End Py.
Export Py.

Declare Scope py_scope.
Delimit Scope py_scope with py.
Notation "x <- c ;; k" := (bind c (fun x => k))
  (at level 100, c at next level, right associativity) : py_scope.
Notation "c ;; k" := (bind c (fun _ => k))
  (at level 100, right associativity) : py_scope.
Local Open Scope py_scope.

(** ** [_execute_many]

    The cursor is whatever object offers [execute]; the function is
    written once for every such object. *)

Class Cursor (C S : Type) := cursor_execute : C -> string -> M S unit.

(** [statements] is an [Iterable[str]]; the [stmt or ""] of the source
    also admits [None], so an entry is an [option string]. *)
Fixpoint _execute_many {C S} `{Cursor C S} (cursor : C)
    (statements : list (option string)) : M S unit :=
  match statements with
  | [] => ret tt
  | stmt :: rest =>
      let s := strip (default "" stmt) in
      if negb (truthy s) then _execute_many cursor rest
      else (cursor_execute cursor s ;; _execute_many cursor rest)
  end.

(** The statements that survive stripping, in their order. *)
Definition effective (statements : list (option string)) : list string :=
  List.filter truthy (List.map (fun stmt => strip (default "" stmt)) statements).

(** Plain sequential execution of a list of texts, stopping at the first
    exception. *)
Fixpoint execute_each {C S} `{Cursor C S} (cursor : C) (texts : list string)
    : M S unit :=
  match texts with
  | [] => ret tt
  | t :: rest => cursor_execute cursor t ;; execute_each cursor rest
  end.

(** A cursor that records every text it is handed, and raises on the
    texts [bad] selects. *)
Record recorder := { rec_bad : string -> bool }.

#[export] Instance recorder_cursor : Cursor recorder (list string) :=
  fun r s calls =>
    (if rec_bad r s then Raise (SqliteError s) else Ok tt, calls ++ [s]).

(** The texts up to and including the first one [bad] selects. *)
Fixpoint through_first (bad : string -> bool) (l : list string) : list string :=
  match l with
  | [] => []
  | x :: rest => if bad x then [x] else x :: through_first bad rest
  end.

(** ** The SQLite engine, as far as the scripts drive it *)

Module Sqlite.

(** *** Statements

    The engine is handed text.  Of SQL, the model reads the statement
    forms that occur in the two scripts; a column definition is kept as
    the column's name, a foreign key as the table it points to. *)

Inductive pragma := ForeignKeysOn | JournalModeWal | SynchronousNormal.

Record table_def := TableDef {
  td_name : string;
  td_columns : list string;
  td_autoincrement : bool;
  td_references : list string
}.

Record index_def := IndexDef {
  ix_name : string;
  ix_table : string;
  ix_column : string
}.

Inductive sql :=
| Pragma (p : pragma)
| CreateTableIfNotExists (d : table_def)
| CreateIndexIfNotExists (d : index_def)
| InsertOrReplaceAppInfo           (* two bound parameters: key, value *)
| SelectTablesNotLike (pattern : string).

(** *** The database image

    What a database file holds: the tables and indexes of
    [sqlite_master] (internal tables such as [sqlite_sequence]
    included), the rows of [app_info] with its AUTOINCREMENT counter,
    and the journal mode, which SQLite keeps in the file.  Rows of the
    other tables are not represented: no statement of the scripts reads
    or writes them.  A table called [app_info] is taken to carry the
    constraints of the initializer's own DDL.  Names are compared as
    written.  [created_at] is the engine's wall clock and is left out. *)

Record app_row := AppRow {
  row_id : Z;
  row_key : string;
  row_value : option string
}.

Record db := Db {
  db_tables : gmap string (list string);
  db_indexes : gmap string (string * string);
  db_rows : list app_row;
  db_seq : Z;
  db_wal : bool
}.

Definition empty_db : db := Db ∅ ∅ [] 0 false.

Definition has_column (c : string) (cols : list string) : bool :=
  existsb (String.eqb c) cols.

(** The first AUTOINCREMENT table brings [sqlite_sequence] with it. *)
Definition with_sequence (auto : bool) (t : gmap string (list string))
    : gmap string (list string) :=
  if auto then
    match t !! "sqlite_sequence" with
    | Some _ => t
    | None => <["sqlite_sequence" := ["name"; "seq"]]> t
    end
  else t.

(** [CREATE TABLE IF NOT EXISTS]: nothing happens when a table of the
    name is there; an index of the name is an error all the same. *)
Definition create_table (d : table_def) (b : db) : res db :=
  match db_tables b !! td_name d with
  | Some _ => Ok b
  | None =>
      match db_indexes b !! td_name d with
      | Some _ =>
          Raise (SqliteError ("there is already an index named " +:+ td_name d))
      | None =>
          Ok (Db (with_sequence (td_autoincrement d)
                    (<[td_name d := td_columns d]> (db_tables b)))
                 (db_indexes b) (db_rows b) (db_seq b) (db_wal b))
      end
  end.

(** [CREATE INDEX IF NOT EXISTS i ON t(c)]: the table is looked up
    first, then the name, and the column only when the index is new. *)
Definition create_index (d : index_def) (b : db) : res db :=
  match db_tables b !! ix_table d with
  | None => Raise (SqliteError ("no such table: main." +:+ ix_table d))
  | Some cols =>
      match db_tables b !! ix_name d with
      | Some _ =>
          Raise (SqliteError ("there is already a table named " +:+ ix_name d))
      | None =>
          match db_indexes b !! ix_name d with
          | Some _ => Ok b
          | None =>
              if has_column (ix_column d) cols then
                Ok (Db (db_tables b)
                       (<[ix_name d := (ix_table d, ix_column d)]> (db_indexes b))
                       (db_rows b) (db_seq b) (db_wal b))
              else Raise (SqliteError ("no such column: " +:+ ix_column d))
          end
      end
  end.

Definition max_rowid : Z := 9223372036854775807.

Definition largest_id (rows : list app_row) : Z :=
  fold_right (fun r m => Z.max (row_id r) m) 0 rows.

Definition other_key (k : string) (r : app_row) : bool :=
  negb (String.eqb (row_key r) k).

(** [INSERT OR REPLACE INTO app_info (key, value) VALUES (k, v)].
    Compiling the statement needs the table and its two columns. *)
Definition prepare_upsert (b : db) : option exn :=
  match db_tables b !! "app_info" with
  | None => Some (SqliteError "no such table: app_info")
  | Some cols =>
      if negb (has_column "key" cols) then
        Some (SqliteError "table app_info has no column named key")
      else if negb (has_column "value" cols) then
        Some (SqliteError "table app_info has no column named value")
      else None
  end.

(** Running it: the row id is one past the largest ever used; the row
    that holds the key is deleted and the new row added. *)
Definition upsert (k v : string) (b : db) : res db :=
  match prepare_upsert b with
  | Some e => Raise e
  | None =>
      let top := Z.max (db_seq b) (largest_id (db_rows b)) in
      if top >=? max_rowid then
        Raise (SqliteError "database or disk is full")
      else
        Ok (Db (db_tables b) (db_indexes b)
               (List.filter (other_key k) (db_rows b)
                  ++ [AppRow (top + 1) k (Some v)])
               (top + 1) (db_wal b))
  end.

Definition set_wal (b : db) : db :=
  Db (db_tables b) (db_indexes b) (db_rows b) (db_seq b) true.

(** *** [LIKE]

    [%] stands for any run of characters, [_] for exactly one, and
    letters of ASCII match without regard to case. *)
Definition lower (c : ascii) : ascii :=
  let n := nat_of_ascii c in
  if ((65 <=? n) && (n <=? 90))%nat then ascii_of_nat (n + 32) else c.

Definition same_letter (c d : ascii) : bool := Ascii.eqb (lower c) (lower d).

Fixpoint like (pattern text : string) : bool :=
  match pattern with
  | EmptyString => negb (truthy text)
  | String "%" rest =>
      (fix skip (t : string) : bool :=
         like rest t
         || match t with EmptyString => false | String _ t' => skip t' end) text
  | String "_" rest =>
      match text with EmptyString => false | String _ t' => like rest t' end
  | String c rest =>
      match text with
      | EmptyString => false
      | String d t' => same_letter c d && like rest t'
      end
  end.

(** [SELECT name FROM sqlite_master WHERE type='table' AND name NOT
    LIKE pattern] *)
Definition select_tables_not_like (pattern : string) (b : db) : list string :=
  List.filter (fun n => negb (like pattern n))
    (List.map fst (map_to_list (db_tables b))).

End Sqlite.
Export Sqlite.

(** ** The statement texts of the scripts, and how the engine reads them

    Each text is the literal of the source; beside it stands its reading.
    The multi-line literals of [schema_statements] keep their line breaks
    and indentation. *)

Module Texts.

Definition text_app_info : string := "
            CREATE TABLE IF NOT EXISTS app_info (
                id INTEGER PRIMARY KEY AUTOINCREMENT,
                key TEXT UNIQUE NOT NULL,
                value TEXT,
                created_at TIMESTAMP DEFAULT CURRENT_TIMESTAMP
            );
            ".

Definition table_app_info : table_def :=
  TableDef "app_info"
    ["id"; "key"; "value"; "created_at"]
    true [].

Definition text_users : string := "
            CREATE TABLE IF NOT EXISTS users (
                id INTEGER PRIMARY KEY AUTOINCREMENT,
                email TEXT NOT NULL UNIQUE,
                username TEXT UNIQUE,
                password_hash TEXT,
                is_active INTEGER NOT NULL DEFAULT 1,
                is_admin INTEGER NOT NULL DEFAULT 0,
                created_at TIMESTAMP DEFAULT CURRENT_TIMESTAMP,
                updated_at TIMESTAMP DEFAULT CURRENT_TIMESTAMP
            );
            ".

Definition table_users : table_def :=
  TableDef "users"
    ["id"; "email"; "username"; "password_hash"; "is_active"; "is_admin"; "created_at"; "updated_at"]
    true [].

Definition text_credentials : string := "
            CREATE TABLE IF NOT EXISTS credentials (
                id INTEGER PRIMARY KEY AUTOINCREMENT,
                user_id INTEGER NOT NULL,
                title TEXT NOT NULL,
                description TEXT,
                data_encrypted BLOB NOT NULL,
                iv BLOB, -- initialization vector (optional if embedded)
                created_at TIMESTAMP DEFAULT CURRENT_TIMESTAMP,
                updated_at TIMESTAMP DEFAULT CURRENT_TIMESTAMP,
                FOREIGN KEY (user_id) REFERENCES users(id) ON DELETE CASCADE
            );
            ".

Definition table_credentials : table_def :=
  TableDef "credentials"
    ["id"; "user_id"; "title"; "description"; "data_encrypted"; "iv"; "created_at"; "updated_at"]
    true ["users"].

Definition text_shares : string := "
            CREATE TABLE IF NOT EXISTS shares (
                id INTEGER PRIMARY KEY AUTOINCREMENT,
                credential_id INTEGER NOT NULL,
                shared_with_user_id INTEGER NOT NULL,
                permission TEXT NOT NULL DEFAULT 'read', -- read|write
                expires_at TIMESTAMP,
                created_at TIMESTAMP DEFAULT CURRENT_TIMESTAMP,
                FOREIGN KEY (credential_id) REFERENCES credentials(id) ON DELETE CASCADE,
                FOREIGN KEY (shared_with_user_id) REFERENCES users(id) ON DELETE CASCADE,
                UNIQUE (credential_id, shared_with_user_id)
            );
            ".

Definition table_shares : table_def :=
  TableDef "shares"
    ["id"; "credential_id"; "shared_with_user_id"; "permission"; "expires_at"; "created_at"]
    true ["credentials"; "users"].

Definition text_ekyc_sessions : string := "
            CREATE TABLE IF NOT EXISTS ekyc_sessions (
                id INTEGER PRIMARY KEY AUTOINCREMENT,
                user_id INTEGER NOT NULL,
                status TEXT NOT NULL DEFAULT 'pending', -- pending|verified|failed
                provider TEXT,
                reference_id TEXT,
                result_json TEXT, -- store normalized result snapshot
                created_at TIMESTAMP DEFAULT CURRENT_TIMESTAMP,
                updated_at TIMESTAMP DEFAULT CURRENT_TIMESTAMP,
                FOREIGN KEY (user_id) REFERENCES users(id) ON DELETE CASCADE
            );
            ".

Definition table_ekyc_sessions : table_def :=
  TableDef "ekyc_sessions"
    ["id"; "user_id"; "status"; "provider"; "reference_id"; "result_json"; "created_at"; "updated_at"]
    true ["users"].

Definition text_audit_logs : string := "
            CREATE TABLE IF NOT EXISTS audit_logs (
                id INTEGER PRIMARY KEY AUTOINCREMENT,
                user_id INTEGER,
                action TEXT NOT NULL,
                resource_type TEXT,
                resource_id INTEGER,
                ip_address TEXT,
                user_agent TEXT,
                created_at TIMESTAMP DEFAULT CURRENT_TIMESTAMP,
                FOREIGN KEY (user_id) REFERENCES users(id) ON DELETE SET NULL
            );
            ".

Definition table_audit_logs : table_def :=
  TableDef "audit_logs"
    ["id"; "user_id"; "action"; "resource_type"; "resource_id"; "ip_address"; "user_agent"; "created_at"]
    true ["users"].

Definition text_idx_users_email : string :=
  "CREATE INDEX IF NOT EXISTS idx_users_email ON users(email);".
Definition index_idx_users_email : index_def :=
  IndexDef "idx_users_email" "users" "email".

Definition text_idx_users_username : string :=
  "CREATE INDEX IF NOT EXISTS idx_users_username ON users(username);".
Definition index_idx_users_username : index_def :=
  IndexDef "idx_users_username" "users" "username".

Definition text_idx_credentials_user_id : string :=
  "CREATE INDEX IF NOT EXISTS idx_credentials_user_id ON credentials(user_id);".
Definition index_idx_credentials_user_id : index_def :=
  IndexDef "idx_credentials_user_id" "credentials" "user_id".

Definition text_idx_shares_credential_id : string :=
  "CREATE INDEX IF NOT EXISTS idx_shares_credential_id ON shares(credential_id);".
Definition index_idx_shares_credential_id : index_def :=
  IndexDef "idx_shares_credential_id" "shares" "credential_id".

Definition text_idx_shares_shared_with_user_id : string :=
  "CREATE INDEX IF NOT EXISTS idx_shares_shared_with_user_id ON shares(shared_with_user_id);".
Definition index_idx_shares_shared_with_user_id : index_def :=
  IndexDef "idx_shares_shared_with_user_id" "shares" "shared_with_user_id".

Definition text_idx_ekyc_user_id : string :=
  "CREATE INDEX IF NOT EXISTS idx_ekyc_user_id ON ekyc_sessions(user_id);".
Definition index_idx_ekyc_user_id : index_def :=
  IndexDef "idx_ekyc_user_id" "ekyc_sessions" "user_id".

Definition text_idx_audit_user_id : string :=
  "CREATE INDEX IF NOT EXISTS idx_audit_user_id ON audit_logs(user_id);".
Definition index_idx_audit_user_id : index_def :=
  IndexDef "idx_audit_user_id" "audit_logs" "user_id".

Definition text_idx_audit_created_at : string :=
  "CREATE INDEX IF NOT EXISTS idx_audit_created_at ON audit_logs(created_at);".
Definition index_idx_audit_created_at : index_def :=
  IndexDef "idx_audit_created_at" "audit_logs" "created_at".

Definition text_foreign_keys : string := "PRAGMA foreign_keys = ON;".
Definition text_journal_mode : string := "PRAGMA journal_mode = WAL;".
Definition text_synchronous : string := "PRAGMA synchronous = NORMAL;".

Definition text_seed : string :=
  "INSERT OR REPLACE INTO app_info (key, value) VALUES (?, ?)".

Definition text_select_tables : string :=
  "SELECT name FROM sqlite_master WHERE type='table' AND name NOT LIKE 'sqlite_%'".

(** The engine skips the white space around a statement, so a text is
    known by its stripped form. *)
Definition readings : list (string * sql) :=
  [ (text_foreign_keys, Pragma ForeignKeysOn);
    (text_journal_mode, Pragma JournalModeWal);
    (text_synchronous, Pragma SynchronousNormal);
    (strip text_app_info, CreateTableIfNotExists table_app_info);
    (strip text_users, CreateTableIfNotExists table_users);
    (strip text_credentials, CreateTableIfNotExists table_credentials);
    (strip text_shares, CreateTableIfNotExists table_shares);
    (strip text_ekyc_sessions, CreateTableIfNotExists table_ekyc_sessions);
    (strip text_audit_logs, CreateTableIfNotExists table_audit_logs);
    (text_idx_users_email, CreateIndexIfNotExists index_idx_users_email);
    (text_idx_users_username, CreateIndexIfNotExists index_idx_users_username);
    (text_idx_credentials_user_id,
      CreateIndexIfNotExists index_idx_credentials_user_id);
    (text_idx_shares_credential_id,
      CreateIndexIfNotExists index_idx_shares_credential_id);
    (text_idx_shares_shared_with_user_id,
      CreateIndexIfNotExists index_idx_shares_shared_with_user_id);
    (text_idx_ekyc_user_id, CreateIndexIfNotExists index_idx_ekyc_user_id);
    (text_idx_audit_user_id, CreateIndexIfNotExists index_idx_audit_user_id);
    (text_idx_audit_created_at,
      CreateIndexIfNotExists index_idx_audit_created_at);
    (text_seed, InsertOrReplaceAppInfo);
    (text_select_tables, SelectTablesNotLike "sqlite_%") ].

Definition parse (text : string) : option sql :=
  snd <$> List.find (fun p => String.eqb (fst p) (strip text)) readings.

End Texts.
Export Texts.

(** ** The world: files, connections, standard output *)

Module World.

(** What a path names.  A file holds text or a database image; a file of
    no bytes is also an empty database. *)
Inductive node :=
| Directory
| TextFile (text : string)
| DbFile (image : db).

Definition read_image (n : option node) : option db :=
  match n with
  | Some (DbFile b) => Some b
  | Some (TextFile EmptyString) => Some empty_db
  | _ => None
  end.

(** A [sqlite3.Connection].  [c_pending] is the image an open transaction
    has built and not yet committed; [c_result] the rows of the last
    query. *)
Record connection := Connection {
  c_path : string;
  c_open : bool;
  c_foreign_keys : bool;
  c_synchronous_normal : bool;
  c_pending : option db;
  c_result : list string
}.

(** Paths are compared as written.  [w_denied] are the paths the process
    may not create or open for writing; [w_quota] gives, for a path, how
    many more [write] calls succeed on it (no entry: no limit). *)
Record world := World {
  w_fs : gmap string node;
  w_denied : gset string;
  w_quota : gmap string nat;
  w_conns : list connection;
  w_stdout : list string
}.

Definition set_fs (fs : gmap string node) (w : world) : world :=
  World fs (w_denied w) (w_quota w) (w_conns w) (w_stdout w).
Definition set_quota (q : gmap string nat) (w : world) : world :=
  World (w_fs w) (w_denied w) q (w_conns w) (w_stdout w).
Definition set_conns (cs : list connection) (w : world) : world :=
  World (w_fs w) (w_denied w) (w_quota w) cs (w_stdout w).
Definition set_stdout (out : list string) (w : world) : world :=
  World (w_fs w) (w_denied w) (w_quota w) (w_conns w) out.

Definition with_pending (p : option db) (c : connection) : connection :=
  Connection (c_path c) (c_open c) (c_foreign_keys c) (c_synchronous_normal c)
    p (c_result c).
Definition with_result (rows : list string) (c : connection) : connection :=
  Connection (c_path c) (c_open c) (c_foreign_keys c) (c_synchronous_normal c)
    (c_pending c) rows.
Definition with_foreign_keys (c : connection) : connection :=
  Connection (c_path c) (c_open c) true (c_synchronous_normal c)
    (c_pending c) (c_result c).
Definition with_synchronous_normal (c : connection) : connection :=
  Connection (c_path c) (c_open c) (c_foreign_keys c) true
    (c_pending c) (c_result c).
Definition put_conn (h : nat) (c : connection) (w : world) : world :=
  set_conns (<[h := c]> (w_conns w)) w.

(** *** [print]

    Standard output takes every line. *)
Definition print (line : string) : M world unit :=
  fun w => (Ok tt, set_stdout (w_stdout w ++ [line]) w).

(** *** [os] and [open] *)

Definition path_exists (p : string) : M world bool :=
  fun w => (Ok (bool_decide (is_Some (w_fs w !! p))), w).

(** [os.makedirs(p, exist_ok=True)] *)
Definition makedirs (p : string) : M world unit :=
  fun w =>
    match w_fs w !! p with
    | Some Directory => (Ok tt, w)
    | Some _ => (Raise (OSError ("[Errno 17] File exists: '" +:+ p +:+ "'")), w)
    | None =>
        if bool_decide (p ∈ w_denied w) then
          (Raise (OSError ("[Errno 13] Permission denied: '" +:+ p +:+ "'")), w)
        else (Ok tt, set_fs (<[p := Directory]> (w_fs w)) w)
    end.

(** [open(p, "w")]: the file object is known by its path; opening
    empties the file. *)
Definition open_w (p : string) : M world string :=
  fun w =>
    match w_fs w !! p with
    | Some Directory =>
        (Raise (OSError ("[Errno 21] Is a directory: '" +:+ p +:+ "'")), w)
    | _ =>
        if bool_decide (p ∈ w_denied w) then
          (Raise (OSError ("[Errno 13] Permission denied: '" +:+ p +:+ "'")), w)
        else (Ok p, set_fs (<[p := TextFile ""]> (w_fs w)) w)
    end.

Definition text_of (n : option node) : string :=
  match n with Some (TextFile t) => t | _ => "" end.

Definition append_text (f : string) (s : string) (w : world) : world :=
  set_fs (<[f := TextFile (text_of (w_fs w !! f) +:+ s)]> (w_fs w)) w.

(** [f.write(s)]: the text reaches the file when the call returns. *)
Definition file_write (f : string) (s : string) : M world unit :=
  fun w =>
    match w_quota w !! f with
    | Some O => (Raise (OSError "[Errno 28] No space left on device"), w)
    | Some (S n) => (Ok tt, append_text f s (set_quota (<[f := n]> (w_quota w)) w))
    | None => (Ok tt, append_text f s w)
    end.

(** Leaving [with open(...)]: the file is closed. *)
Definition file_exit (f : string) (raised : bool) : M world unit := ret tt.

(** *** [sqlite3] *)

Definition unable_to_open : exn := SqliteError "unable to open database file".
Definition not_a_database : exn := SqliteError "file is not a database".
Definition closed_database : exn :=
  SqliteError "Cannot operate on a closed database.".
Definition wrong_bindings (n : nat) : exn :=
  SqliteError ("Incorrect number of bindings supplied. The current statement uses 2, and there are "
               +:+ pretty n +:+ " supplied.").

Definition new_connection (p : string) : connection :=
  Connection p true false false None [].

(** [sqlite3.connect(p)]: a missing file is created, empty.  The
    connection is known by its position among the connections made. *)
Definition connect (p : string) : M world nat :=
  fun w =>
    let h := length (w_conns w) in
    let opened := set_conns (w_conns w ++ [new_connection p]) w in
    match w_fs w !! p with
    | Some Directory => (Raise unable_to_open, w)
    | Some _ => (Ok h, opened)
    | None =>
        if bool_decide (p ∈ w_denied w) then (Raise unable_to_open, w)
        else (Ok h, set_fs (<[p := DbFile empty_db]> (w_fs w)) opened)
    end.

(** The image a connection sees: its open transaction's, or the file's. *)
Definition current_image (c : connection) (w : world) : option db :=
  match c_pending c with
  | Some b => Some b
  | None => read_image (w_fs w !! c_path c)
  end.

(** Where a statement's effect goes: into the open transaction, or, with
    none open, straight into the file (autocommit). *)
Definition save (h : nat) (c : connection) (b : db) (w : world) : world :=
  match c_pending c with
  | Some _ => put_conn h (with_pending (Some b) c) w
  | None => set_fs (<[c_path c := DbFile b]> (w_fs w)) w
  end.

Definition run_schema_change (h : nat) (c : connection) (f : db -> res db)
    : M world unit :=
  fun w =>
    match current_image c w with
    | None => (Raise not_a_database, w)
    | Some b =>
        match f b with
        | Ok b' => (Ok tt, save h c b' w)
        | Raise e => (Raise e, w)
        end
    end.

(** One statement on connection [h], under the transaction control the
    [sqlite3] module applies by default: a transaction is opened before
    an INSERT, UPDATE, DELETE or REPLACE when none is open, and before
    nothing else.  A statement that does not compile opens none.  Inside
    a transaction the foreign-key and journal-mode pragmas change
    nothing. *)
Definition run_statement (h : nat) (c : connection) (stmt : sql)
    (params : list string) : M world unit :=
  match stmt with
  | Pragma ForeignKeysOn =>
      fun w => (Ok tt, match c_pending c with
                       | Some _ => w
                       | None => put_conn h (with_foreign_keys c) w
                       end)
  | Pragma SynchronousNormal =>
      match c_pending c with
      | Some _ =>
          raise (SqliteError "Safety level may not be changed inside a transaction")
      | None => fun w => (Ok tt, put_conn h (with_synchronous_normal c) w)
      end
  | Pragma JournalModeWal =>
      match c_pending c with
      | Some _ => ret tt
      | None => run_schema_change h c (fun b => Ok (set_wal b))
      end
  | CreateTableIfNotExists d => run_schema_change h c (create_table d)
  | CreateIndexIfNotExists d => run_schema_change h c (create_index d)
  | InsertOrReplaceAppInfo =>
      fun w =>
        match current_image c w with
        | None => (Raise not_a_database, w)
        | Some b =>
            match prepare_upsert b with
            | Some e => (Raise e, w)
            | None =>
                match params with
                | [k; v] =>
                    match upsert k v b with
                    | Ok b' => (Ok tt, put_conn h (with_pending (Some b') c) w)
                    | Raise e =>
                        (Raise e, put_conn h (with_pending (Some b) c) w)
                    end
                | _ => (Raise (wrong_bindings (length params)), w)
                end
            end
        end
  | SelectTablesNotLike pattern =>
      fun w =>
        match current_image c w with
        | None => (Raise not_a_database, w)
        | Some b =>
            (Ok tt, put_conn h (with_result (select_tables_not_like pattern b) c) w)
        end
  end.

(** [execute(text, params)] on connection [h] *)
Definition execute (h : nat) (text : string) (params : list string)
    : M world unit :=
  fun w =>
    match w_conns w !! h with
    | None => (Raise closed_database, w)
    | Some c =>
        if c_open c then
          match parse text with
          | Some stmt => run_statement h c stmt params w
          | None => (Raise (SqliteError "syntax error"), w)
          end
        else (Raise closed_database, w)
    end.

(** [conn.commit()] *)
Definition commit (h : nat) : M world unit :=
  fun w =>
    match w_conns w !! h with
    | None => (Raise closed_database, w)
    | Some c =>
        if c_open c then
          match c_pending c with
          | Some b =>
              (Ok tt, put_conn h (with_pending None c)
                        (set_fs (<[c_path c := DbFile b]> (w_fs w)) w))
          | None => (Ok tt, w)
          end
        else (Raise closed_database, w)
    end.

(** [conn.rollback()] *)
Definition rollback (h : nat) : M world unit :=
  fun w =>
    match w_conns w !! h with
    | None => (Raise closed_database, w)
    | Some c =>
        if c_open c then (Ok tt, put_conn h (with_pending None c) w)
        else (Raise closed_database, w)
    end.

(** [conn.close()]: an open transaction is dropped.  Neither script
    calls it; what the runtime does to an object nobody refers to any
    more is not represented. *)
Definition close (h : nat) : M world unit :=
  fun w =>
    match w_conns w !! h with
    | None => (Ok tt, w)
    | Some c =>
        (Ok tt, put_conn h
                  (Connection (c_path c) false (c_foreign_keys c)
                     (c_synchronous_normal c) None (c_result c)) w)
    end.

(** Leaving [with conn]: commit when the body returned, roll back when it
    raised.  The connection stays open. *)
Definition connection_exit (h : nat) (raised : bool) : M world unit :=
  if raised then rollback h else commit h.

(** [conn.cursor()] *)
Record cursor := CursorOf { cur_conn : nat }.

#[export] Instance sqlite_cursor : Cursor cursor world :=
  fun cur text => execute (cur_conn cur) text [].

(** [cur.fetchall()] *)
Definition fetchall (cur : cursor) : M world (list string) :=
  fun w =>
    match w_conns w !! cur_conn cur with
    | None => (Raise closed_database, w)
    | Some c => (Ok (c_result c), put_conn (cur_conn cur) (with_result [] c) w)
    end.

End World.
Export World.

(** ** [init_db.py] *)

(** [os.getcwd] and the pure path functions of [os.path]; what they
    compute is left open. *)
Class os_path := OsPath {
  getcwd : string;
  abspath : string -> string;
  dirname : string -> string;
  basename : string -> string
}.

Module InitDb.

Definition DB_NAME : string := "myapp.db".

Definition nl : string := String (ascii_of_nat 10) EmptyString.
Definition dquote : string := String (ascii_of_nat 34) EmptyString.

(** [except Exception] *)
Definition any_exception (e : exn) : bool := true.

Definition schema_statements : list (option string) :=
  [ Some text_app_info;
    Some text_users;
    Some text_credentials;
    Some text_shares;
    Some text_ekyc_sessions;
    Some text_audit_logs;
    Some text_idx_users_email;
    Some text_idx_users_username;
    Some text_idx_credentials_user_id;
    Some text_idx_shares_credential_id;
    Some text_idx_shares_shared_with_user_id;
    Some text_idx_ekyc_user_id;
    Some text_idx_audit_user_id;
    Some text_idx_audit_created_at ].

Section Paths.
Context `{os_path}.

(** Write db_connection.txt, .env, and db_visualizer/sqlite.env files. *)
Definition write_connection_files (db_path : string) (first_time : bool)
    : M world unit :=
  let current_dir := getcwd in
  let absolute_path := abspath db_path in
  let connection_string := "sqlite:///" +:+ absolute_path in
  try_except
    (with_ (open_w "db_connection.txt") file_exit (fun f =>
       file_write f ("# SQLite connection methods:" +:+ nl) ;;
       file_write f ("# Python: sqlite3.connect('" +:+ db_path +:+ "')" +:+ nl) ;;
       file_write f ("# Connection string: " +:+ connection_string +:+ nl) ;;
       file_write f ("# File path: " +:+ absolute_path +:+ nl)) ;;
     print "Connection information saved to db_connection.txt")
    any_exception
    (fun e => print ("Warning: Could not save connection info: " +:+ exn_str e)) ;;
  try_except
    (with_ (open_w ".env") file_exit (fun f =>
       file_write f ("# Auto-generated by init_db.py" +:+ nl) ;;
       file_write f ("DB_URL=" +:+ connection_string +:+ nl) ;;
       file_write f ("SQLITE_DB=" +:+ absolute_path +:+ nl)) ;;
     print "Environment variables saved to .env")
    any_exception
    (fun e => print ("Warning: Could not write .env: " +:+ exn_str e)) ;;
  try_except
    (makedirs "db_visualizer" ;;
     with_ (open_w "db_visualizer/sqlite.env") file_exit (fun f =>
       file_write f ("export SQLITE_DB=" +:+ dquote +:+ absolute_path
                     +:+ dquote +:+ nl)) ;;
     print "Visualizer environment saved to db_visualizer/sqlite.env")
    any_exception
    (fun e =>
       print ("Warning: Could not write db_visualizer/sqlite.env: " +:+ exn_str e)) ;;
  print "" ;;
  print "SQLite setup complete!" ;;
  print ("Database: " +:+ basename db_path) ;;
  print ("Location: " +:+ absolute_path) ;;
  (if first_time then print "Initialized a new database file."
   else print "Verified existing database and ensured schema is present.") ;;
  print "".

(** The [with sqlite3.connect(db_path) as conn:] statement of
    [init_sqlite_db]. *)
Definition schema_block (db_path : string) : M world unit :=
  with_ (connect db_path) connection_exit (fun conn =>
    execute conn "PRAGMA foreign_keys = ON;" [] ;;
    execute conn "PRAGMA journal_mode = WAL;" [] ;;
    execute conn "PRAGMA synchronous = NORMAL;" [] ;;
    let cur := CursorOf conn in
    _execute_many cur schema_statements ;;
    execute (cur_conn cur)
      "INSERT OR REPLACE INTO app_info (key, value) VALUES (?, ?)"
      ["project_name"; "database_postgres"] ;;
    execute (cur_conn cur)
      "INSERT OR REPLACE INTO app_info (key, value) VALUES (?, ?)"
      ["version"; "0.2.0"] ;;
    commit conn).

(** [init_sqlite_db] up to the end of the [with] statement: the Schema
    Initializer.  Its value is [first_time]. *)
Definition schema_initializer (db_path : string) : M world bool :=
  present <- path_exists db_path ;;
  let first_time := negb present in
  makedirs (dirname (abspath db_path)) ;;
  schema_block db_path ;;
  ret first_time.

(** Initialize the SQLite database with the full schema and indexes. *)
Definition init_sqlite_db (db_path : string) : M world unit :=
  first_time <- schema_initializer db_path ;;
  write_connection_files db_path first_time.

(** Entrypoint for CLI usage. *)
Definition main : M world unit := init_sqlite_db DB_NAME.

End Paths.
End InitDb.

(** ** [test_db.py] *)

Module TestDb.

Definition DB_NAME : string := "myapp.db".

Definition REQUIRED_TABLES : gset string :=
  {[ "users"; "credentials"; "shares"; "ekyc_sessions"; "audit_logs" ]}.

(** [sorted(s)] on a set of strings: ascending by code point. *)
Definition str_le (a b : string) : Prop := String.leb a b = true.

#[export] Instance str_le_dec (a b : string) : Decision (str_le a b).
Proof. unfold str_le. apply _. Defined.

Definition sorted (s : gset string) : list string :=
  merge_sort str_le (elements s).

Definition main : M world Z :=
  present <- path_exists DB_NAME ;;
  if negb present then
    print ("Database file '" +:+ DB_NAME +:+ "' not found") ;;
    ret 1
  else
    try_except
      (with_ (connect DB_NAME) connection_exit (fun conn =>
         let cur := CursorOf conn in
         execute (cur_conn cur) "PRAGMA foreign_keys = ON;" [] ;;
         execute (cur_conn cur)
           "SELECT name FROM sqlite_master WHERE type='table' AND name NOT LIKE 'sqlite_%'"
           [] ;;
         rows <- fetchall cur ;;
         let existing : gset string := list_to_set rows in
         let missing : gset string := REQUIRED_TABLES ∖ existing in
         if negb (bool_decide (missing = ∅)) then
           print ("Missing tables: " +:+ join ", " (sorted missing)) ;;
           print ("Existing tables: " +:+ join ", " (sorted existing)) ;;
           ret 1
         else
           print "All required tables are present." ;;
           ret 0))
      is_sqlite_error
      (fun e =>
         print ("Schema validation failed: " +:+ exn_str e) ;;
         ret 1).

(** The required set as the specification words it: one table per entity
    of the data model. *)
Definition spec_required_tables : gset string :=
  {[ "app_info"; "users"; "credentials"; "shares"; "ekyc_sessions";
     "audit_logs" ]}.

End TestDb.

(** ** Auxiliary definitions for the properties *)






(** What the validator computes from a database image. *)
Definition existing_tables (b : db) : gset string :=
  list_to_set (select_tables_not_like "sqlite_%" b).

Definition missing_tables (b : db) : gset string :=
  TestDb.REQUIRED_TABLES ∖ existing_tables b.

(** A name that begins with [sqlite_]: an engine-internal table. *)
Definition internal_name (n : string) : bool := String.prefix "sqlite_" n.

(** The tables of an image that are not engine-internal. *)
Definition user_tables (b : db) : gset string :=
  filter (fun n => internal_name n = false) (dom (db_tables b)).

(** The lines the validator prints. *)
Definition absent_line : string := "Database file 'myapp.db' not found".
Definition storage_line (e : exn) : string :=
  "Schema validation failed: " +:+ exn_str e.
Definition missing_line (s : gset string) : string :=
  "Missing tables: " +:+ join ", " (TestDb.sorted s).
Definition existing_line (s : gset string) : string :=
  "Existing tables: " +:+ join ", " (TestDb.sorted s).
Definition present_line : string := "All required tables are present.".

(** The connection the validator leaves behind after a query. *)
Definition validator_connection : connection :=
  Connection TestDb.DB_NAME true true false None [].

(** ** The artifacts of the connection-info emitter *)

(** The [f.write] calls of one [with open(...)] body, in a row. *)
Fixpoint write_lines (f : string) (lines : list string) : M world unit :=
  match lines with
  | [] => ret tt
  | l :: rest =>
      match rest with
      | [] => file_write f l
      | _ => file_write f l ;; write_lines f rest
      end
  end.

(** One guarded block of [write_connection_files]: perhaps a directory
    to make, a file to write, the line printed on success and the start
    of the warning printed on failure. *)
Record artifact := Artifact {
  a_dir : option string;
  a_path : string;
  a_lines : list string;
  a_saved : string;
  a_warning : string
}.

Definition artifact_block (a : artifact) : M world unit :=
  try_except
    ((match a_dir a with Some d => makedirs d | None => ret tt end) ;;
     with_ (open_w (a_path a)) file_exit (fun f => write_lines f (a_lines a)) ;;
     print (a_saved a))
    InitDb.any_exception
    (fun e => print (a_warning a +:+ exn_str e)).

Section Artifacts.
Context `{os_path}.

Definition connection_note (db_path : string) : artifact :=
  Artifact None "db_connection.txt"
    [ "# SQLite connection methods:" +:+ InitDb.nl;
      "# Python: sqlite3.connect('" +:+ db_path +:+ "')" +:+ InitDb.nl;
      "# Connection string: " +:+ ("sqlite:///" +:+ abspath db_path) +:+ InitDb.nl;
      "# File path: " +:+ abspath db_path +:+ InitDb.nl ]
    "Connection information saved to db_connection.txt"
    "Warning: Could not save connection info: ".

Definition env_file (db_path : string) : artifact :=
  Artifact None ".env"
    [ "# Auto-generated by init_db.py" +:+ InitDb.nl;
      "DB_URL=" +:+ ("sqlite:///" +:+ abspath db_path) +:+ InitDb.nl;
      "SQLITE_DB=" +:+ abspath db_path +:+ InitDb.nl ]
    "Environment variables saved to .env"
    "Warning: Could not write .env: ".

Definition visualizer_env (db_path : string) : artifact :=
  Artifact (Some "db_visualizer") "db_visualizer/sqlite.env"
    [ "export SQLITE_DB=" +:+ InitDb.dquote +:+ abspath db_path
      +:+ InitDb.dquote +:+ InitDb.nl ]
    "Visualizer environment saved to db_visualizer/sqlite.env"
    "Warning: Could not write db_visualizer/sqlite.env: ".

(** The closing lines of [write_connection_files]. *)
Definition summary (db_path : string) (first_time : bool) : list string :=
  [ ""; "SQLite setup complete!";
    "Database: " +:+ basename db_path;
    "Location: " +:+ abspath db_path;
    if first_time then "Initialized a new database file."
    else "Verified existing database and ensured schema is present.";
    "" ].

End Artifacts.

(** The text a file holds after all the lines were written. *)
Definition full_text (a : artifact) : string :=
  fold_right String.append "" (a_lines a).

(** Nothing in the world stands in the way of writing the artifact. *)
Definition dir_ready (d : option string) (w : world) : Prop :=
  match d with
  | None => True
  | Some d => w_fs w !! d = Some Directory
              \/ (w_fs w !! d = None /\ d ∉ w_denied w)
  end.

Definition writable (a : artifact) (w : world) : Prop :=
  dir_ready (a_dir a) w
  /\ (a_path a ∉ w_denied w)
  /\ w_quota w !! a_path a = None
  /\ w_fs w !! a_path a <> Some Directory.

(** The artifact is in place: its file holds the full text. *)
Definition saved (a : artifact) (w : world) : Prop :=
  w_fs w !! a_path a = Some (TextFile (full_text a)).

(** The line an artifact's block printed tells its outcome. *)
Definition reported (a : artifact) (line : string) (w' : world) : Prop :=
  (line = a_saved a /\ saved a w')
  \/ (exists e, line = a_warning a +:+ exn_str e).

(** The paths a block may touch. *)
Definition touched (a : artifact) : list string :=
  match a_dir a with Some d => [d; a_path a] | None => [a_path a] end.

(** Two worlds that differ at most in the files and quotas of [keys]. *)
Definition same_except (keys : list string) (w w' : world) : Prop :=
  w_conns w' = w_conns w /\ w_stdout w' = w_stdout w
  /\ w_denied w' = w_denied w
  /\ forall k, k ∉ keys ->
        w_fs w' !! k = w_fs w !! k /\ w_quota w' !! k = w_quota w !! k.

(** ** The schema block, statement by statement *)

(** A run of schema changes in autocommit mode: each change that
    succeeds is in the file at once; the first that fails stops the run.
    The image returned is what the file then holds. *)
Fixpoint run_changes (changes : list (db -> res db)) (b : db) : res unit * db :=
  match changes with
  | [] => (Ok tt, b)
  | f :: rest =>
      match f b with
      | Ok b' => run_changes rest b'
      | Raise e => (Raise e, b)
      end
  end.

Definition table_defs : list table_def :=
  [ table_app_info; table_users; table_credentials; table_shares;
    table_ekyc_sessions; table_audit_logs ].

Definition index_defs : list index_def :=
  [ index_idx_users_email; index_idx_users_username;
    index_idx_credentials_user_id; index_idx_shares_credential_id;
    index_idx_shares_shared_with_user_id; index_idx_ekyc_user_id;
    index_idx_audit_user_id; index_idx_audit_created_at ].

Definition ddl_changes : list (db -> res db) :=
  List.map create_table table_defs ++ List.map create_index index_defs.

(** What [schema_block] does to a readable image: the result of the
    block and the image committed to the file when it is left. *)
Definition block_outcome (b0 : db) : res unit * db :=
  match run_changes ddl_changes (set_wal b0) with
  | (Raise e, b) => (Raise e, b)
  | (Ok _, b) =>
      match upsert "project_name" "database_postgres" b with
      | Raise e => (Raise e, b)
      | Ok b1 =>
          match upsert "version" "0.2.0" b1 with
          | Raise e => (Raise e, b)
          | Ok b2 => (Ok tt, b2)
          end
      end
  end.

(** The connection [schema_block] leaves behind once the pragmas ran. *)
Definition settled_connection (p : string) : connection :=
  Connection p true true true None [].

(** Every table and index of the schema is there. *)
Definition schema_present (b : db) : Prop :=
  (forall d, d ∈ table_defs -> is_Some (db_tables b !! td_name d))
  /\ (forall d, d ∈ index_defs ->
        is_Some (db_tables b !! ix_table d)
        /\ db_tables b !! ix_name d = None
        /\ is_Some (db_indexes b !! ix_name d)).

(** [b'] has everything [b] has, and the same rows. *)
Definition grows (b b' : db) : Prop :=
  (forall n, is_Some (db_tables b !! n) -> db_tables b' !! n = db_tables b !! n)
  /\ (forall n, is_Some (db_indexes b !! n) ->
        db_indexes b' !! n = db_indexes b !! n)
  /\ db_rows b' = db_rows b /\ db_seq b' = db_seq b.

(** The rows of app_info that hold the key [k]. *)
Definition rows_of (k : string) (b : db) : list app_row :=
  List.filter (fun r => String.eqb (row_key r) k) (db_rows b).

(** The rows of app_info that hold neither seed key. *)
Definition other_rows (b : db) : list app_row :=
  List.filter (fun r => other_key "project_name" r && other_key "version" r)
    (db_rows b).


Definition committed_image (p : string) (w : world) : db :=
  match read_image (w_fs w !! p) with
  | Some b => b
  | None => empty_db
  end.

(** A statement text and the schema change the engine makes of it. *)
Inductive reads_as : string -> (db -> res db) -> Prop :=
| reads_table text d :
    parse text = Some (CreateTableIfNotExists d) -> reads_as text (create_table d)
| reads_index text d :
    parse text = Some (CreateIndexIfNotExists d) -> reads_as text (create_index d).

(** The image [schema_block] starts from: the file's, or the empty one
    of a file it creates; none when the connection cannot be made or the
    file is no database. *)
Definition image_before (p : string) (w : world) : option db :=
  match w_fs w !! p with
  | None => if bool_decide (p ∈ w_denied w) then None else Some empty_db
  | Some n => read_image (Some n)
  end.

(** A connection that is open and has no transaction in progress. *)
Definition idle (c : connection) : Prop :=
  c_open c = true /\ c_pending c = None.

(** ** Sample worlds *)

(** A database with a users table from before the email column. *)
Definition legacy_db : db :=
  Db {[ "users" := ["id"; "name"] ]} ∅ [] 0 false.

Definition legacy_world : world :=
  World {[ "myapp.db" := DbFile legacy_db ]} ∅ ∅ [] [].

Definition empty_world : world := World ∅ ∅ ∅ [] [].

(** The five required tables among others, one of them the engine's. *)
Definition crowded_db : db :=
  Db {[ "users" := ["id"]; "credentials" := ["id"]; "shares" := ["id"];
        "ekyc_sessions" := ["id"]; "audit_logs" := ["id"];
        "notes" := ["id"]; "sqlite_sequence" := ["name"; "seq"] ]} ∅ [] 0 false.

(** A database with two of the required tables. *)
Definition two_tables : db :=
  Db {[ "users" := ["id"]; "credentials" := ["id"] ]} ∅ [] 0 false.

(** Paths for the examples: everything lives in /srv. *)
Definition sample_paths : os_path :=
  OsPath "/srv" (fun p => "/srv/" +:+ p) (fun _ => "/srv") (fun p => p).


(** A database that holds exactly the five tables the validator asks
    for, and no app_info. *)
Definition five_tables : db :=
  Db {[ "users" := ["id"]; "credentials" := ["id"]; "shares" := ["id"];
        "ekyc_sessions" := ["id"]; "audit_logs" := ["id"] ]} ∅ [] 0 false.

Definition five_tables_world : world :=
  World {[ TestDb.DB_NAME := DbFile five_tables ]} ∅ ∅ [] [].

(** The world after the initializer ran once in an empty directory. *)
Definition after_first_run : world :=
  snd (@InitDb.main sample_paths empty_world).

(** ** Definitions for the further properties *)

(** The last character of a text. *)
Fixpoint last_char (s : string) : option ascii :=
  match s with
  | EmptyString => None
  | String c EmptyString => Some c
  | String _ rest => last_char rest
  end.

(** A text as [_execute_many] hands it to the cursor: not empty, and no
    white space at either end. *)
Definition clean (t : string) : Prop :=
  t <> ""
  /\ (forall c r, t = String c r -> is_space c = false)
  /\ (forall c, last_char t = Some c -> is_space c = false).

(** An entry [_execute_many] skips: [None], or white space only. *)
Definition blank (stmt : option string) : Prop :=
  match stmt with
  | None => True
  | Some t => forallb is_space (list_ascii_of_string t) = true
  end.


(** The paths [write_connection_files] may write. *)
Definition emitter_paths : list string :=
  [ "db_connection.txt"; ".env"; "db_visualizer"; "db_visualizer/sqlite.env" ].



(** * Properties *)


(** ** The statement executor *)

Lemma execute_many_each {C S} `{Cursor C S} (cursor : C) statements s :
  _execute_many cursor statements s = execute_each cursor (effective statements) s.
Proof.
  revert s. induction statements as [|stmt rest IH]; intros s; [reflexivity|].
  unfold effective in *. cbn [_execute_many List.map List.filter].
  destruct (truthy (strip (default "" stmt))); cbn [negb execute_each].
  - unfold bind. destruct (cursor_execute cursor _ s) as [[[]|e] s']; [apply IH|reflexivity].
  - apply IH.
Qed.

Lemma recorder_each bad texts calls :
  execute_each (Build_recorder bad) texts calls
  = (match List.find bad texts with
     | Some t => Raise (SqliteError t)
     | None => Ok tt
     end, calls ++ through_first bad texts).
Proof.
  revert calls. induction texts as [|t rest IH]; intros calls.
  - cbn. by rewrite app_nil_r.
  - cbn [execute_each through_first List.find]. unfold bind.
    unfold cursor_execute at 1, recorder_cursor at 1. cbn [rec_bad].
    destruct (bad t); [reflexivity|].
    by rewrite IH, <- app_assoc.
Qed.

Lemma strip_truthy s :
  truthy (strip s)
  = existsb (fun c => negb (is_space c)) (list_ascii_of_string s).
Proof.
  unfold strip. induction s as [|c s IH]; [reflexivity|].
  cbn [lstrip list_ascii_of_string existsb].
  destruct (is_space c) eqn:Hc; cbn [negb orb]; [exact IH|].
  cbn [rstrip]. rewrite Hc. by destruct (rstrip s).
Qed.

(** C9: for every cursor and every list of statements, [_execute_many]
    behaves as the plain in-order execution of exactly the statements
    that are non-empty after stripping; a cursor that records its calls
    receives those texts, in their original order, up to the first one
    that raises; when no call raises, all of them are received and the
    executor returns normally, however many empty, blank or [None]
    entries were skipped; and a statement survives stripping exactly when
    it has a character that is not white space. *)
Theorem execute_many_runs_effective :
  (forall C S (HC : Cursor C S) (cursor : C) statements s,
     _execute_many cursor statements s
     = execute_each cursor (effective statements) s)
  /\ (forall bad statements calls,
        snd (_execute_many (Build_recorder bad) statements calls)
        = calls ++ through_first bad (effective statements))
  /\ (forall statements calls,
        _execute_many (Build_recorder (fun _ => false)) statements calls
        = (Ok tt, calls ++ effective statements))
  /\ (forall s,
        truthy (strip s)
        = existsb (fun c => negb (is_space c)) (list_ascii_of_string s))
  /\ effective [Some "  "; None; Some ""; Some " SELECT 1; "; Some "x"]
     = ["SELECT 1;"; "x"].
Proof.
  split; [|split; [|split; [|split]]].
  - intros. apply execute_many_each.
  - intros. by rewrite execute_many_each, recorder_each.
  - intros. rewrite execute_many_each, recorder_each.
    assert (Hall : forall l : list string, List.find (fun _ => false) l = None)
      by (induction l; auto).
    assert (Hthr : forall l, through_first (fun _ => false) l = l)
      by (induction l as [|? ? IHl]; cbn; [|rewrite IHl]; auto).
    by rewrite Hall, Hthr.
  - apply strip_truthy.
  - vm_compute. reflexivity.
Qed.

(** ** The order of the DDL *)




(** ** Symbolic execution of the scripts *)

Lemma lookup_snoc {A} (l : list A) x : (l ++ [x]) !! length l = Some x.
Proof. by rewrite list_lookup_middle. Qed.

Lemma insert_snoc {A} (l : list A) x y :
  <[length l := y]> (l ++ [x]) = l ++ [y].
Proof. rewrite insert_app_r_alt by lia. by rewrite Nat.sub_diag. Qed.

Lemma parse_foreign_keys :
  parse "PRAGMA foreign_keys = ON;" = Some (Pragma ForeignKeysOn).
Proof. vm_compute. reflexivity. Qed.

Lemma parse_journal_mode :
  parse "PRAGMA journal_mode = WAL;" = Some (Pragma JournalModeWal).
Proof. vm_compute. reflexivity. Qed.

Lemma parse_synchronous :
  parse "PRAGMA synchronous = NORMAL;" = Some (Pragma SynchronousNormal).
Proof. vm_compute. reflexivity. Qed.

Lemma parse_seed :
  parse "INSERT OR REPLACE INTO app_info (key, value) VALUES (?, ?)"
  = Some InsertOrReplaceAppInfo.
Proof. vm_compute. reflexivity. Qed.

Lemma parse_select :
  parse "SELECT name FROM sqlite_master WHERE type='table' AND name NOT LIKE 'sqlite_%'"
  = Some (SelectTablesNotLike "sqlite_%").
Proof. vm_compute. reflexivity. Qed.

(** The rewriting steps of a run: list positions of the connection in
    use, and the readings of the literal texts. *)
Ltac known_steps :=
  rewrite ?lookup_snoc, ?insert_snoc, ?parse_foreign_keys, ?parse_journal_mode,
    ?parse_synchronous, ?parse_seed, ?parse_select.

(** ** The validator *)

Ltac use_facts :=
  repeat match goal with
         | H : _ !! _ = _ |- _ => rewrite H
         | H : read_image _ = _ |- _ => rewrite H
         end.

Ltac run_validator :=
  unfold TestDb.main, bind, path_exists, try_except, with_, connect, execute,
    fetchall, put_conn, set_conns, set_fs, print, set_stdout, connection_exit,
    commit, rollback, ret;
  repeat (progress (cbn -[parse missing_tables existing_tables];
                    use_facts; known_steps)).

Lemma validator_absent fs den quo cs out :
  fs !! TestDb.DB_NAME = None ->
  TestDb.main (World fs den quo cs out)
  = (Ok 1, World fs den quo cs (out ++ [absent_line])).
Proof.
  intros Hn. run_validator. reflexivity.
Qed.

Lemma validator_directory fs den quo cs out :
  fs !! TestDb.DB_NAME = Some Directory ->
  TestDb.main (World fs den quo cs out)
  = (Ok 1, World fs den quo cs (out ++ [storage_line unable_to_open])).
Proof.
  intros Hn. run_validator. reflexivity.
Qed.

Lemma validator_not_database fs den quo cs out a t :
  fs !! TestDb.DB_NAME = Some (TextFile (String a t)) ->
  TestDb.main (World fs den quo cs out)
  = (Ok 1, World fs den quo
             (cs ++ [with_foreign_keys (new_connection TestDb.DB_NAME)])
             (out ++ [storage_line not_a_database])).
Proof.
  intros Hn. run_validator. reflexivity.
Qed.

Lemma validator_on_database fs den quo cs out n b :
  fs !! TestDb.DB_NAME = Some n -> read_image (Some n) = Some b ->
  TestDb.main (World fs den quo cs out)
  = if bool_decide (missing_tables b = ∅) then
      (Ok 0, World fs den quo (cs ++ [validator_connection]) (out ++ [present_line]))
    else
      (Ok 1, World fs den quo (cs ++ [validator_connection])
               (out ++ [missing_line (missing_tables b);
                        existing_line (existing_tables b)])).
Proof.
  intros Hn Hb. run_validator.
  destruct n as [|t|b']; [discriminate Hb| |].
  all: run_validator.
  all: fold (existing_tables b); fold (missing_tables b).
  all: destruct (bool_decide (missing_tables b = ∅)); run_validator.
  all: by rewrite <- ?app_assoc.
Qed.

Lemma elem_of_existing b n :
  n ∈ existing_tables b
  <-> is_Some (db_tables b !! n) /\ like "sqlite_%" n = false.
Proof.
  unfold existing_tables, select_tables_not_like.
  rewrite elem_of_list_to_set, list_elem_of_In, filter_In, in_map_iff, negb_true_iff.
  split.
  - intros [[[k v] [Hk Hin]] Hl]. cbn in Hk. subst k. split; [|done].
    apply list_elem_of_In, elem_of_map_to_list in Hin. eauto.
  - intros [[v Hv] Hl]. split; [|done]. exists (n, v). split; [done|].
    by apply list_elem_of_In, elem_of_map_to_list.
Qed.

Lemma like_any_rest t :
  (fix skip (t : string) : bool :=
     like "" t || match t with EmptyString => false | String _ t' => skip t' end) t
  = true.
Proof. induction t as [|a t IH]; [reflexivity|]. cbn. exact IH. Qed.

Lemma like_internal n : internal_name n = true -> like "sqlite_%" n = true.
Proof.
  unfold internal_name. intros H.
  do 7 (destruct n as [|? n]; [discriminate H|]; cbn in H;
        match type of H with
        | (if ?d then _ else _) = _ => destruct d; [subst|discriminate H]
        end).
  cbn. apply like_any_rest.
Qed.

Lemma required_not_like n :
  n ∈ TestDb.REQUIRED_TABLES -> like "sqlite_%" n = false.
Proof.
  unfold TestDb.REQUIRED_TABLES. rewrite !elem_of_union, !elem_of_singleton.
  intros H. repeat destruct H as [H|H]; subst n; vm_compute; reflexivity.
Qed.

Lemma missing_empty b :
  missing_tables b = ∅
  <-> forall n, n ∈ TestDb.REQUIRED_TABLES -> is_Some (db_tables b !! n).
Proof.
  unfold missing_tables. split.
  - intros H n Hn. destruct (decide (n ∈ existing_tables b)) as [Hin|Hout].
    + by apply elem_of_existing in Hin as [? _].
    + exfalso. assert (n ∈ TestDb.REQUIRED_TABLES ∖ existing_tables b) as Hd
        by (apply elem_of_difference; done).
      rewrite H in Hd. by apply not_elem_of_empty in Hd.
  - intros H. apply leibniz_equiv, elem_of_equiv_empty. intros n Hd.
    apply elem_of_difference in Hd as [Hn Hout]. apply Hout, elem_of_existing.
    split; [by apply H|by apply required_not_like].
Qed.

Lemma lines_distinct e s1 s2 :
  absent_line <> storage_line e /\ absent_line <> missing_line s1
  /\ absent_line <> present_line /\ storage_line e <> missing_line s2
  /\ storage_line e <> present_line /\ missing_line s1 <> present_line.
Proof. repeat split; intros H; cbn in H; discriminate H. Qed.

(** C6: the validator always returns a status, 0 or 1; the status is 0
    exactly when the database file exists, can be read as a database, and
    holds every required table.  When the file is absent nothing but the
    message is produced (no connection is made); when it is there but
    cannot be queried the storage engine's error is reported; when tables
    are missing both sets are reported; and the lines of the three
    failures and of success are pairwise different. *)
Theorem validator_exit_status (w : world) :
  exists code w',
    TestDb.main w = (Ok code, w')
    /\ (code = 0 \/ code = 1)
    /\ (code = 0 <->
        exists n b,
          w_fs w !! TestDb.DB_NAME = Some n /\ read_image (Some n) = Some b
          /\ forall t, t ∈ TestDb.REQUIRED_TABLES -> is_Some (db_tables b !! t))
    /\ (w_fs w !! TestDb.DB_NAME = None ->
        w' = set_stdout (w_stdout w ++ [absent_line]) w)
    /\ (forall n,
          w_fs w !! TestDb.DB_NAME = Some n -> read_image (Some n) = None ->
          exists e, is_sqlite_error e = true
                    /\ w_stdout w' = w_stdout w ++ [storage_line e])
    /\ (forall n b,
          w_fs w !! TestDb.DB_NAME = Some n -> read_image (Some n) = Some b ->
          missing_tables b <> ∅ ->
          w_stdout w' = w_stdout w ++ [missing_line (missing_tables b);
                                        existing_line (existing_tables b)])
    /\ (forall n b,
          w_fs w !! TestDb.DB_NAME = Some n -> read_image (Some n) = Some b ->
          missing_tables b = ∅ ->
          w_stdout w' = w_stdout w ++ [present_line])
    /\ (forall e s1 s2,
          absent_line <> storage_line e /\ absent_line <> missing_line s1
          /\ absent_line <> present_line /\ storage_line e <> missing_line s2
          /\ storage_line e <> present_line /\ missing_line s1 <> present_line).
Proof.
  destruct w as [fs den quo cs out]. cbn [w_fs w_stdout].
  destruct (fs !! TestDb.DB_NAME) as [n|] eqn:Hn.
  - destruct (read_image (Some n)) as [b|] eqn:Hb.
    + rewrite (validator_on_database _ _ _ _ _ _ _ Hn Hb).
      destruct (bool_decide (missing_tables b = ∅)) eqn:Hm.
      * apply bool_decide_eq_true in Hm. eexists _, _. split; [reflexivity|].
        split; [by left|]. split.
        { split; [|done]. intros _. exists n, b. by rewrite <- missing_empty. }
        split; [done|]. split; [intros ? [= <-] ?; congruence|]. split.
        { intros ? ? [= <-] Hb' Hne. rewrite Hb in Hb'. injection Hb' as <-.
          by destruct Hne. }
        split; [done|]. apply lines_distinct.
      * apply bool_decide_eq_false in Hm. eexists _, _. split; [reflexivity|].
        split; [by right|]. split.
        { split; [done|]. intros (n' & b' & [= <-] & Hb' & Hall).
          rewrite Hb in Hb'. injection Hb' as <-.
          by apply missing_empty in Hall. }
        split; [done|]. split; [intros ? [= <-] ?; congruence|]. split.
        { intros ? ? [= <-] Hb' _. rewrite Hb in Hb'. by injection Hb' as <-. }
        split; [|apply lines_distinct].
        intros ? ? [= <-] Hb' He. rewrite Hb in Hb'. injection Hb' as <-.
        by destruct Hm.
    + assert (Hcase : n = Directory \/ exists a t, n = TextFile (String a t)).
      { destruct n as [|[|a t]|b]; try discriminate Hb; eauto. }
      destruct Hcase as [->|(a & t & ->)].
      * rewrite (validator_directory _ _ _ _ _ Hn). eexists _, _.
        split; [reflexivity|]. split; [by right|]. split.
        { split; [done|]. by intros (n' & b' & [= <-] & Hb' & _). }
        split; [done|]. split.
        { intros ? [= <-] _. by exists unable_to_open. }
        split; [by intros ? ? [= <-] ?|]. split; [by intros ? ? [= <-] ?|].
        apply lines_distinct.
      * rewrite (validator_not_database _ _ _ _ _ _ _ Hn). eexists _, _.
        split; [reflexivity|]. split; [by right|]. split.
        { split; [done|]. by intros (n' & b' & [= <-] & Hb' & _). }
        split; [done|]. split.
        { intros ? [= <-] _. by exists not_a_database. }
        split; [by intros ? ? [= <-] ?|]. split; [by intros ? ? [= <-] ?|].
        apply lines_distinct.
  - rewrite (validator_absent _ _ _ _ _ Hn). eexists _, _.
    split; [reflexivity|]. split; [by right|]. split.
    { split; [done|]. by intros (n' & b' & ? & _). }
    split; [done|]. split; [done|]. split; [done|]. split; [done|].
    apply lines_distinct.
Qed.

Lemma sorted_elements (s : gset string) x : x ∈ TestDb.sorted s <-> x ∈ s.
Proof.
  unfold TestDb.sorted. rewrite merge_sort_Permutation. apply elem_of_elements.
Qed.

(** C2 (as the code has it): when the database file exists and can be
    read, the validator enumerates the tables whose names are not LIKE
    'sqlite_%', takes the difference of the required set of five tables
    (users, credentials, shares, ekyc_sessions, audit_logs; app_info is
    not among them) minus the enumerated ones, returns 0 with the success
    line exactly when the difference is empty, and otherwise returns 1
    with one line listing the missing set and one listing the existing
    set. *)
Theorem validator_set_difference fs den quo cs out n b :
  fs !! TestDb.DB_NAME = Some n -> read_image (Some n) = Some b ->
  TestDb.REQUIRED_TABLES
  = {[ "users"; "credentials"; "shares"; "ekyc_sessions"; "audit_logs" ]}
  /\ (forall t, t ∈ existing_tables b
                <-> is_Some (db_tables b !! t) /\ like "sqlite_%" t = false)
  /\ missing_tables b = TestDb.REQUIRED_TABLES ∖ existing_tables b
  /\ (fst (TestDb.main (World fs den quo cs out)) = Ok 0
      <-> missing_tables b = ∅)
  /\ (missing_tables b = ∅ ->
      TestDb.main (World fs den quo cs out)
      = (Ok 0, World fs den quo (cs ++ [validator_connection])
                 (out ++ [present_line])))
  /\ (missing_tables b <> ∅ ->
      TestDb.main (World fs den quo cs out)
      = (Ok 1, World fs den quo (cs ++ [validator_connection])
                 (out ++ [missing_line (missing_tables b);
                          existing_line (existing_tables b)])))
  /\ (forall s t, t ∈ TestDb.sorted s <-> t ∈ s).
Proof.
  intros Hn Hb. rewrite (validator_on_database _ _ _ _ _ _ _ Hn Hb).
  split; [reflexivity|]. split; [apply elem_of_existing|].
  split; [reflexivity|].
  destruct (bool_decide (missing_tables b = ∅)) eqn:Hm.
  - apply bool_decide_eq_true in Hm.
    repeat split; try done. apply sorted_elements. apply sorted_elements.
  - apply bool_decide_eq_false in Hm.
    repeat split; try done. apply sorted_elements. apply sorted_elements.
Qed.

Lemma validator_set_difference_witness :
  fst (TestDb.main five_tables_world) = Ok 0 <-> missing_tables five_tables = ∅.
Proof.
  refine (proj1 (proj2 (proj2 (proj2
            (validator_set_difference _ ∅ ∅ [] [] (DbFile five_tables)
               five_tables _ _))))).
  - vm_compute. reflexivity.
  - reflexivity.
Defined.

(** C2 fails for the six-table set of the specification: on a database
    with the five tables and no app_info the validator reports success,
    although the six-table set minus the existing tables is not empty. *)
Lemma validator_six_tables_counterexample :
  TestDb.main five_tables_world
  = (Ok 0, World {[ TestDb.DB_NAME := DbFile five_tables ]} ∅ ∅
             [validator_connection] ["All required tables are present."])
  /\ "app_info" ∈ TestDb.spec_required_tables ∖ existing_tables five_tables
  /\ TestDb.spec_required_tables ∖ existing_tables five_tables <> ∅.
Proof.
  assert (Hin : "app_info"
                  ∈ TestDb.spec_required_tables ∖ existing_tables five_tables).
  { apply elem_of_difference. split.
    - unfold TestDb.spec_required_tables. set_solver.
    - rewrite elem_of_existing. intros [[v Hv] _]. vm_compute in Hv.
      discriminate Hv. }
  split; [vm_compute; reflexivity|]. split; [exact Hin|].
  intros He. rewrite He in Hin. by apply not_elem_of_empty in Hin.
Qed.

Lemma user_table_existing b n :
  n ∈ TestDb.REQUIRED_TABLES -> n ∈ user_tables b -> n ∈ existing_tables b.
Proof.
  intros Hreq Hin. apply elem_of_existing. split.
  - unfold user_tables in Hin. apply elem_of_filter in Hin as [_ Hd].
    by apply elem_of_dom in Hd.
  - by apply required_not_like.
Qed.

Lemma existing_agree b b' :
  (forall n, internal_name n = false ->
             (is_Some (db_tables b !! n) <-> is_Some (db_tables b' !! n))) ->
  existing_tables b = existing_tables b'.
Proof.
  intros Hsame. apply leibniz_equiv. intros n. rewrite !elem_of_existing.
  split; intros [Hn Hl]; (split; [|done]).
  all: apply Hsame; [|done].
  all: destruct (internal_name n) eqn:Hi; [|done].
  all: apply like_internal in Hi; congruence.
Qed.

(** C10: on a readable database whose tables outside the engine's own
    (names beginning with [sqlite_]) include every required table, the
    validator returns 0 whatever other tables there are; a name beginning
    with [sqlite_] is never in the enumerated set of existing tables; and
    two databases that hold the same tables apart from such names get the
    same status and the same printed lines; and a database that has all
    the tables of one on which the validator returns 0 gets 0 as well. *)
Theorem validator_ignores_internal_tables :
  (forall fs den quo cs out n b,
     fs !! TestDb.DB_NAME = Some n -> read_image (Some n) = Some b ->
     TestDb.REQUIRED_TABLES ⊆ user_tables b ->
     fst (TestDb.main (World fs den quo cs out)) = Ok 0)
  /\ (forall b n, internal_name n = true -> n ∉ existing_tables b)
  /\ (forall fs den quo cs out n b fs' den' quo' cs' out' n' b',
        fs !! TestDb.DB_NAME = Some n -> read_image (Some n) = Some b ->
        fs' !! TestDb.DB_NAME = Some n' -> read_image (Some n') = Some b' ->
        (forall t, internal_name t = false ->
                   (is_Some (db_tables b !! t) <-> is_Some (db_tables b' !! t))) ->
        exists code lines,
          fst (TestDb.main (World fs den quo cs out)) = Ok code
          /\ fst (TestDb.main (World fs' den' quo' cs' out')) = Ok code
          /\ w_stdout (snd (TestDb.main (World fs den quo cs out))) = out ++ lines
          /\ w_stdout (snd (TestDb.main (World fs' den' quo' cs' out')))
             = out' ++ lines)
  /\ (forall fs den quo cs out n b fs' den' quo' cs' out' n' b',
        fs !! TestDb.DB_NAME = Some n -> read_image (Some n) = Some b ->
        fs' !! TestDb.DB_NAME = Some n' -> read_image (Some n') = Some b' ->
        dom (db_tables b) ⊆ dom (db_tables b') ->
        fst (TestDb.main (World fs den quo cs out)) = Ok 0 ->
        fst (TestDb.main (World fs' den' quo' cs' out')) = Ok 0).
Proof.
  split; [|split; [|split]]; cycle 3.
  { intros fs den quo cs out n b fs' den' quo' cs' out' n' b' Hn Hb Hn' Hb' Hsub.
    rewrite (validator_on_database _ _ _ _ _ _ _ Hn Hb).
    rewrite (validator_on_database _ _ _ _ _ _ _ Hn' Hb').
    destruct (bool_decide (missing_tables b = ∅)) eqn:Hm; [|discriminate].
    intros _. apply bool_decide_eq_true in Hm.
    rewrite bool_decide_eq_true_2; [reflexivity|].
    apply missing_empty. intros t Ht. apply elem_of_dom, Hsub, elem_of_dom.
    revert t Ht. by apply missing_empty. }
  - intros fs den quo cs out n b Hn Hb Hsup.
    rewrite (validator_on_database _ _ _ _ _ _ _ Hn Hb).
    rewrite bool_decide_eq_true_2; [reflexivity|].
    apply missing_empty. intros t Ht.
    pose proof (user_table_existing b t Ht (Hsup t Ht)) as Hex.
    by apply elem_of_existing in Hex as [? _].
  - intros b n Hi Hin. apply elem_of_existing in Hin as [_ Hl].
    apply like_internal in Hi. congruence.
  - intros fs den quo cs out n b fs' den' quo' cs' out' n' b' Hn Hb Hn' Hb' Hsame.
    rewrite (validator_on_database _ _ _ _ _ _ _ Hn Hb).
    rewrite (validator_on_database _ _ _ _ _ _ _ Hn' Hb').
    unfold missing_tables. rewrite (existing_agree b b' Hsame).
    destruct (bool_decide _); eexists _, _; cbn [fst snd w_stdout]; done.
Qed.

(** ** The connection-info emitter *)

Lemma write_connection_files_blocks `{os_path} db_path (first_time : bool) w :
  InitDb.write_connection_files db_path first_time w
  = (artifact_block (connection_note db_path) ;;
     artifact_block (env_file db_path) ;;
     artifact_block (visualizer_env db_path) ;;
     print "" ;;
     print "SQLite setup complete!" ;;
     print ("Database: " +:+ basename db_path) ;;
     print ("Location: " +:+ abspath db_path) ;;
     (if first_time then print "Initialized a new database file."
      else print "Verified existing database and ensured schema is present.") ;;
     print "") w.
Proof. reflexivity. Qed.

Lemma same_except_refl keys w : same_except keys w w.
Proof. by repeat split. Qed.

Lemma same_except_trans keys w1 w2 w3 :
  same_except keys w1 w2 -> same_except keys w2 w3 -> same_except keys w1 w3.
Proof.
  intros (Hc & Ho & Hd & Hk) (Hc' & Ho' & Hd' & Hk').
  repeat split; try congruence.
  - rewrite (proj1 (Hk' k H)). apply Hk, H.
  - rewrite (proj2 (Hk' k H)). apply Hk, H.
Qed.

Lemma not_in_one (k f : string) : k ∉ [f] -> f <> k.
Proof. intros Hk ->. apply Hk. by left. Qed.

Lemma file_write_frame f s w : same_except [f] w (snd (file_write f s w)).
Proof.
  unfold file_write. destruct (w_quota w !! f) as [[|q]|];
    cbn; repeat split; try done; intros; cbn;
    rewrite ?lookup_insert_ne by (by apply not_in_one); done.
Qed.

Lemma write_lines_cons f l rest w :
  write_lines f (l :: rest) w = (file_write f l ;; write_lines f rest) w.
Proof.
  destruct rest as [|l' rest]; [|reflexivity].
  cbn. unfold bind. by destruct (file_write f l w) as [[[]|e] w'].
Qed.

Lemma write_lines_frame f lines w :
  same_except [f] w (snd (write_lines f lines w)).
Proof.
  revert w. induction lines as [|l rest IH]; intros w.
  - apply same_except_refl.
  - rewrite write_lines_cons. unfold bind.
    pose proof (file_write_frame f l w) as Hw.
    destruct (file_write f l w) as [[[]|e] w1]; [|exact Hw].
    eapply same_except_trans; [exact Hw|apply IH].
Qed.

Lemma append_assoc (a b c : string) : (a +:+ b) +:+ c = a +:+ (b +:+ c).
Proof.
  induction a as [|x a IH]; [reflexivity|].
  change (String x ((a +:+ b) +:+ c) = String x (a +:+ (b +:+ c))).
  by rewrite IH.
Qed.

Lemma append_empty (a : string) : a +:+ "" = a.
Proof.
  induction a as [|x a IH]; [reflexivity|].
  change (String x (a +:+ "") = String x a). by rewrite IH.
Qed.

Lemma write_lines_all f lines w t :
  w_quota w !! f = None -> w_fs w !! f = Some (TextFile t) ->
  exists w',
    write_lines f lines w = (Ok tt, w')
    /\ w_fs w' !! f = Some (TextFile (t +:+ fold_right String.append "" lines)).
Proof.
  revert w t. induction lines as [|l rest IH]; intros w t Hq Ht.
  - exists w. split; [reflexivity|]. cbn [fold_right].
    by rewrite append_empty.
  - rewrite write_lines_cons. unfold bind, file_write. rewrite Hq.
    destruct (IH (append_text f l w) (t +:+ l)) as (w' & Hrun & Htext).
    + exact Hq.
    + unfold append_text. cbn. rewrite Ht. cbn. apply lookup_insert_eq.
    + exists w'. split; [exact Hrun|]. rewrite Htext. cbn [fold_right].
      by rewrite append_assoc.
Qed.

Lemma open_w_frame p w : same_except [p] w (snd (open_w p w)).
Proof.
  unfold open_w.
  destruct (w_fs w !! p) as [[| |]|]; try apply same_except_refl.
  all: destruct (bool_decide (p ∈ w_denied w)); try apply same_except_refl.
  all: cbn; repeat split; try done; intros; cbn.
  all: rewrite ?lookup_insert_ne by (by apply not_in_one); done.
Qed.

Lemma makedirs_frame d w : same_except [d] w (snd (makedirs d w)).
Proof.
  unfold makedirs.
  destruct (w_fs w !! d) as [[| |]|]; try apply same_except_refl.
  destruct (bool_decide (d ∈ w_denied w)); try apply same_except_refl.
  cbn; repeat split; try done; intros; cbn.
  all: rewrite ?lookup_insert_ne by (by apply not_in_one); done.
Qed.

(** The [with open(p, "w") as f:] statement over its writes. *)
Lemma save_frame p lines w :
  same_except [p] w
    (snd (with_ (open_w p) file_exit (fun f => write_lines f lines) w)).
Proof.
  unfold with_. pose proof (open_w_frame p w) as Ho.
  assert (Hf : forall f, fst (open_w p w) = Ok f -> f = p).
  { unfold open_w. intros f.
    destruct (w_fs w !! p) as [[| |]|]; cbn; try discriminate;
      destruct (bool_decide _); cbn; congruence. }
  destruct (open_w p w) as [[f|e] w1]; [|exact Ho].
  rewrite (Hf f eq_refl). cbn [snd] in Ho.
  pose proof (write_lines_frame p lines w1) as Hl.
  destruct (write_lines p lines w1) as [[[]|e] w2]; cbn in *;
    by eapply same_except_trans.
Qed.

Lemma save_all p lines w :
  p ∉ w_denied w -> w_quota w !! p = None -> w_fs w !! p <> Some Directory ->
  exists w',
    with_ (open_w p) file_exit (fun f => write_lines f lines) w = (Ok tt, w')
    /\ w_fs w' !! p = Some (TextFile (fold_right String.append "" lines)).
Proof.
  intros Hd Hq Hn. unfold with_, open_w.
  rewrite (bool_decide_eq_false_2 _ Hd).
  set (w1 := set_fs (<[p := TextFile ""]> (w_fs w)) w).
  assert (Hopen : match w_fs w !! p with
                  | Some Directory =>
                      (Raise (OSError ("[Errno 21] Is a directory: '" +:+ p +:+ "'")), w)
                  | _ => (Ok p, w1)
                  end = (Ok p, w1)).
  { destruct (w_fs w !! p) as [[| |]|]; try reflexivity. by destruct Hn. }
  rewrite Hopen.
  destruct (write_lines_all p lines w1 "") as (w' & Hrun & Htext).
  - exact Hq.
  - apply lookup_insert_eq.
  - rewrite Hrun. cbn. exists w'. split; [reflexivity|exact Htext].
Qed.

Lemma write_lines_result f lines w t w' :
  w_fs w !! f = Some (TextFile t) ->
  write_lines f lines w = (Ok tt, w') ->
  w_fs w' !! f = Some (TextFile (t +:+ fold_right String.append "" lines)).
Proof.
  revert w t. induction lines as [|l rest IH]; intros w t Ht Hrun.
  - injection Hrun as <-. cbn [fold_right]. by rewrite append_empty.
  - rewrite write_lines_cons in Hrun. unfold bind, file_write in Hrun.
    cbn [fold_right]. rewrite <- append_assoc.
    destruct (w_quota w !! f) as [[|q]|]; [discriminate Hrun| |].
    all: eapply IH; [|exact Hrun].
    all: unfold append_text; cbn; rewrite Ht; apply lookup_insert_eq.
Qed.

Lemma save_result p lines w w' :
  with_ (open_w p) file_exit (fun f => write_lines f lines) w = (Ok tt, w') ->
  w_fs w' !! p = Some (TextFile (fold_right String.append "" lines)).
Proof.
  unfold with_, open_w. intros Hrun.
  assert (Hrun' :
    match write_lines p lines (set_fs (<[p := TextFile ""]> (w_fs w)) w) with
    | (Ok a, s2) => (Ok a, s2)
    | (Raise e, s2) => (Raise e, s2)
    end = (Ok tt, w')).
  { destruct (w_fs w !! p) as [[| |]|]; try discriminate Hrun;
      destruct (bool_decide (p ∈ w_denied w)); try discriminate Hrun;
      revert Hrun; cbn;
      by destruct (write_lines p lines _) as [[[]|e] s2]. }
  destruct (write_lines p lines _) as [[[]|e] s2] eqn:Hw; [|discriminate Hrun'].
  injection Hrun' as <-.
  refine (write_lines_result p lines _ "" s2 _ Hw). apply lookup_insert_eq.
Qed.

Lemma prepare_frame d w :
  same_except (match d with Some d => [d] | None => [] end) w
    (snd (match d with Some d => makedirs d | None => ret tt end w)).
Proof. destruct d; [apply makedirs_frame|apply same_except_refl]. Qed.

Lemma prepare_ready d w :
  dir_ready d w ->
  fst (match d with Some d => makedirs d | None => ret tt end w) = Ok tt.
Proof.
  destruct d as [d|]; [|reflexivity]. unfold makedirs. cbn.
  intros [->|[-> Hd]]; [reflexivity|].
  by rewrite (bool_decide_eq_false_2 _ Hd).
Qed.

Lemma artifact_block_spec a w :
  (forall d, a_dir a = Some d -> d <> a_path a) ->
  exists w' line,
    artifact_block a w = (Ok tt, w')
    /\ w_stdout w' = w_stdout w ++ [line]
    /\ w_conns w' = w_conns w
    /\ w_denied w' = w_denied w
    /\ (forall k, k ∉ touched a ->
          w_fs w' !! k = w_fs w !! k /\ w_quota w' !! k = w_quota w !! k)
    /\ reported a line w'
    /\ (writable a w -> line = a_saved a /\ saved a w').
Proof.
  destruct a as [d p lines ok warn]. cbn [a_dir a_path]. intros Hdp.
  unfold artifact_block, try_except, bind, writable, reported, saved, full_text,
    touched.
  cbn [a_dir a_path a_lines a_saved a_warning].
  pose proof (prepare_frame d w) as Hf0. pose proof (prepare_ready d w) as Hr0.
  destruct (match d with Some d => makedirs d | None => ret tt end w)
    as [[[]|e0] w0]; cbn [fst snd] in *.
  - pose proof (save_frame p lines w0) as Hf1.
    pose proof (save_result p lines w0) as Hr1.
    pose proof (save_all p lines w0) as Ha1.
    assert (Hpk : p ∉ match d with Some d => [d] | None => [] end).
    { destruct d as [d|]; [|apply not_elem_of_nil].
      intros Hin. apply (Hdp d eq_refl). set_solver. }
    destruct Hf0 as (Hc0 & Ho0 & Hd0 & Hk0).
    destruct (with_ (open_w p) file_exit _ w0) as [[[]|e1] w1];
      cbn [snd] in Hf1; destruct Hf1 as (Hc1 & Ho1 & Hd1 & Hk1).
    + eexists _, ok. split; [reflexivity|]. cbn.
      split; [congruence|]. split; [congruence|]. split; [congruence|].
      split; [|split; [left; split; [done|]; by apply Hr1|]].
      * intros k Hk.
        assert (Hkp : k ∉ [p]) by (destruct d; set_solver).
        assert (Hkd : k ∉ match d with Some d => [d] | None => [] end)
          by (destruct d; set_solver).
        rewrite (proj1 (Hk1 k Hkp)), (proj2 (Hk1 k Hkp)). by apply Hk0.
      * intros _. split; [done|]. by apply Hr1.
    + eexists _, (warn +:+ exn_str e1). split; [reflexivity|]. cbn.
      split; [congruence|]. split; [congruence|]. split; [congruence|].
      split; [|split; [right; eauto|]].
      * intros k Hk.
        assert (Hkp : k ∉ [p]) by (destruct d; set_solver).
        assert (Hkd : k ∉ match d with Some d => [d] | None => [] end)
          by (destruct d; set_solver).
        rewrite (proj1 (Hk1 k Hkp)), (proj2 (Hk1 k Hkp)). by apply Hk0.
      * intros (_ & Hden & Hq & Hn). exfalso.
        destruct Ha1 as (w2 & Habs & _); [congruence| | |discriminate Habs].
        -- rewrite (proj2 (Hk0 p Hpk)). exact Hq.
        -- rewrite (proj1 (Hk0 p Hpk)). exact Hn.
  - destruct Hf0 as (Hc0 & Ho0 & Hd0 & Hk0).
    eexists _, (warn +:+ exn_str e0). split; [reflexivity|]. cbn.
    split; [congruence|]. split; [congruence|]. split; [congruence|].
    split; [|split; [right; eauto|]].
    + intros k Hk. apply Hk0. destruct d; set_solver.
    + intros (Hready & _). by specialize (Hr0 Hready).
Qed.

Lemma summary_prints `{os_path} db_path (first_time : bool) w :
  (print "" ;;
   print "SQLite setup complete!" ;;
   print ("Database: " +:+ basename db_path) ;;
   print ("Location: " +:+ abspath db_path) ;;
   (if first_time then print "Initialized a new database file."
    else print "Verified existing database and ensured schema is present.") ;;
   print "") w
  = (Ok tt, set_stdout (w_stdout w ++ summary db_path first_time) w).
Proof.
  destruct w, first_time; unfold bind, print, set_stdout, summary; cbn;
    by rewrite <- !app_assoc.
Qed.

(** What one block leaves of another artifact's standing. *)
Lemma writable_kept a (keys : list string) w w' :
  w_denied w' = w_denied w ->
  (forall k, k ∉ keys ->
     w_fs w' !! k = w_fs w !! k /\ w_quota w' !! k = w_quota w !! k) ->
  a_path a ∉ keys ->
  (forall d, a_dir a = Some d -> d ∉ keys) ->
  writable a w -> writable a w'.
Proof.
  intros Hd Hk Hp Hdir (Hready & Hden & Hq & Hn).
  unfold writable. rewrite Hd, (proj1 (Hk _ Hp)), (proj2 (Hk _ Hp)).
  split; [|done]. unfold dir_ready in *. destruct (a_dir a) as [d|]; [|done].
  by rewrite Hd, (proj1 (Hk d (Hdir d eq_refl))).
Qed.

Lemma emitter_outcome `{os_path} (db_path : string) (first_time : bool)
    (w : world) :
  exists w' l1 l2 l3,
    InitDb.write_connection_files db_path first_time w = (Ok tt, w')
    /\ w_stdout w' = w_stdout w ++ [l1; l2; l3] ++ summary db_path first_time
    /\ reported (connection_note db_path) l1 w'
    /\ reported (env_file db_path) l2 w'
    /\ reported (visualizer_env db_path) l3 w'
    /\ (writable (connection_note db_path) w ->
        l1 = a_saved (connection_note db_path)
        /\ saved (connection_note db_path) w')
    /\ (writable (env_file db_path) w ->
        l2 = a_saved (env_file db_path) /\ saved (env_file db_path) w')
    /\ (writable (visualizer_env db_path) w ->
        l3 = a_saved (visualizer_env db_path)
        /\ saved (visualizer_env db_path) w')
    /\ w_conns w' = w_conns w
    /\ (forall k,
          k ∉ [ "db_connection.txt"; ".env"; "db_visualizer";
                "db_visualizer/sqlite.env" ] ->
          w_fs w' !! k = w_fs w !! k).
Proof.
  rewrite write_connection_files_blocks. unfold bind at 1.
  destruct (artifact_block_spec (connection_note db_path) w)
    as (w1 & l1 & -> & Ho1 & Hc1 & Hd1 & Hk1 & Hrep1 & Hw1); [done|].
  unfold bind at 1.
  destruct (artifact_block_spec (env_file db_path) w1)
    as (w2 & l2 & -> & Ho2 & Hc2 & Hd2 & Hk2 & Hrep2 & Hw2); [done|].
  unfold bind at 1.
  destruct (artifact_block_spec (visualizer_env db_path) w2)
    as (w3 & l3 & -> & Ho3 & Hc3 & Hd3 & Hk3 & Hrep3 & Hw3);
    [by intros d [= <-]|].
  rewrite summary_prints.
  assert (Hk12 : forall k, k ∉ touched (env_file db_path) ->
                           k ∉ touched (visualizer_env db_path) ->
                           w_fs w3 !! k = w_fs w1 !! k).
  { intros k Ha Hb. rewrite (proj1 (Hk3 k Hb)). apply Hk2, Ha. }
  assert (Hsaved1 : saved (connection_note db_path) w1 ->
                    saved (connection_note db_path) w3).
  { unfold saved. intros <-. apply Hk12; cbn; set_solver. }
  assert (Hsaved2 : saved (env_file db_path) w2 -> saved (env_file db_path) w3).
  { unfold saved. intros <-. apply Hk3; cbn; set_solver. }
  assert (Hwr2 : writable (env_file db_path) w -> writable (env_file db_path) w1).
  { apply (writable_kept _ (touched (connection_note db_path)));
      [done|done|cbn; set_solver|intros d [=]]. }
  assert (Hwr3 : writable (visualizer_env db_path) w ->
                 writable (visualizer_env db_path) w2).
  { intros Hwr.
    apply (writable_kept _ (touched (env_file db_path)) w1);
      [done|done|cbn; set_solver|intros d [= <-]; cbn; set_solver|].
    revert Hwr. apply (writable_kept _ (touched (connection_note db_path)));
      [done|done|cbn; set_solver|intros d [= <-]; cbn; set_solver]. }
  exists (set_stdout (w_stdout w3 ++ summary db_path first_time) w3), l1, l2, l3.
  split; [reflexivity|]. cbn [w_stdout set_stdout w_conns].
  split; [rewrite Ho3, Ho2, Ho1, <- !app_assoc; reflexivity|].
  split; [destruct Hrep1 as [[-> Hs]|?]; [left; split; [done|by apply Hsaved1]
                                          |by right]|].
  split; [destruct Hrep2 as [[-> Hs]|?]; [left; split; [done|by apply Hsaved2]
                                          |by right]|].
  split; [destruct Hrep3 as [[-> Hs]|?]; [by left|by right]|].
  split; [intros Hwr; destruct (Hw1 Hwr); split; [done|by apply Hsaved1]|].
  split; [intros Hwr; destruct (Hw2 (Hwr2 Hwr)); split;
          [done|by apply Hsaved2]|].
  split; [intros Hwr; by destruct (Hw3 (Hwr3 Hwr))|].
  split; [congruence|].
  intros k Hk. cbn [w_fs set_stdout].
  rewrite (proj1 (Hk3 k ltac:(cbn; set_solver))).
  rewrite (proj1 (Hk2 k ltac:(cbn; set_solver))).
  apply (Hk1 k ltac:(cbn; set_solver)).
Qed.

(** C7: [write_connection_files] always returns normally.  Each of its
    three blocks prints exactly one line, the success line (and then the
    file holds its full text at the end) or a warning carrying the
    error; whatever happens to the other two, an artifact that nothing
    prevents from being written is written in full; the connections are
    left alone; and so [init_sqlite_db] returns normally whenever the
    schema phase did. *)
Theorem auxiliary_writes_independent `{os_path} (db_path : string)
    (first_time : bool) (w : world) :
  exists w' l1 l2 l3,
    InitDb.write_connection_files db_path first_time w = (Ok tt, w')
    /\ w_stdout w' = w_stdout w ++ [l1; l2; l3] ++ summary db_path first_time
    /\ reported (connection_note db_path) l1 w'
    /\ reported (env_file db_path) l2 w'
    /\ reported (visualizer_env db_path) l3 w'
    /\ (writable (connection_note db_path) w ->
        l1 = a_saved (connection_note db_path)
        /\ saved (connection_note db_path) w')
    /\ (writable (env_file db_path) w ->
        l2 = a_saved (env_file db_path) /\ saved (env_file db_path) w')
    /\ (writable (visualizer_env db_path) w ->
        l3 = a_saved (visualizer_env db_path)
        /\ saved (visualizer_env db_path) w')
    /\ w_conns w' = w_conns w
    /\ (forall w0 ft w1,
          InitDb.schema_initializer db_path w0 = (Ok ft, w1) ->
          fst (InitDb.init_sqlite_db db_path w0) = Ok tt).
Proof.
  destruct (emitter_outcome db_path first_time w)
    as (w' & l1 & l2 & l3 & Hrun & Hout & H1 & H2 & H3 & H4 & H5 & H6 & H7 & _).
  exists w', l1, l2, l3. repeat (split; [assumption|]).
  intros w0 ft w1 Hinit. unfold InitDb.init_sqlite_db, bind. rewrite Hinit.
  by destruct (emitter_outcome db_path ft w1) as (? & ? & ? & ? & -> & _).
Qed.

(** ** The schema changes *)

Lemma grows_refl b : grows b b.
Proof. by repeat split. Qed.

Lemma grows_trans b1 b2 b3 : grows b1 b2 -> grows b2 b3 -> grows b1 b3.
Proof.
  intros (Ht & Hi & Hr & Hs) (Ht' & Hi' & Hr' & Hs').
  repeat split; try congruence.
  - intros n Hn. rewrite <- (Ht n Hn). apply Ht'. by rewrite (Ht n Hn).
  - intros n Hn. rewrite <- (Hi n Hn). apply Hi'. by rewrite (Hi n Hn).
Qed.

Lemma with_sequence_lookup auto (t : gmap string (list string)) n :
  is_Some (t !! n) -> with_sequence auto t !! n = t !! n.
Proof.
  intros Hn. unfold with_sequence. destruct auto; [|done].
  destruct (t !! "sqlite_sequence") eqn:Hs; [done|].
  rewrite lookup_insert_ne; [done|]. intros <-. rewrite Hs in Hn. by destruct Hn.
Qed.

Lemma create_table_spec d b b' :
  create_table d b = Ok b' ->
  grows b b' /\ db_indexes b' = db_indexes b /\ db_wal b' = db_wal b
  /\ is_Some (db_tables b' !! td_name d).
Proof.
  unfold create_table. destruct (db_tables b !! td_name d) as [cols|] eqn:Ht.
  - intros [= <-]. rewrite Ht. repeat split; eauto.
  - destruct (db_indexes b !! td_name d); [discriminate|]. intros [= <-].
    unfold grows. cbn [db_tables db_indexes db_rows db_seq db_wal].
    split; [split; [|done]|split; [done|split; [done|]]].
    + intros n Hn.
      assert (Hne : td_name d <> n)
        by (intros <-; rewrite Ht in Hn; by destruct Hn).
      rewrite with_sequence_lookup; rewrite lookup_insert_ne by done; done.
    + rewrite with_sequence_lookup; rewrite lookup_insert_eq; eauto.
Qed.


Lemma create_index_spec d b b' :
  create_index d b = Ok b' ->
  grows b b' /\ db_tables b' = db_tables b /\ db_wal b' = db_wal b
  /\ is_Some (db_tables b !! ix_table d)
  /\ db_tables b !! ix_name d = None
  /\ is_Some (db_indexes b' !! ix_name d).
Proof.
  unfold create_index.
  destruct (db_tables b !! ix_table d) as [cols|] eqn:Ht; [|discriminate].
  destruct (db_tables b !! ix_name d) eqn:Hn; [discriminate|].
  destruct (db_indexes b !! ix_name d) as [i|] eqn:Hi.
  - intros [= <-]. rewrite Hi. repeat split; eauto.
  - destruct (has_column (ix_column d) cols); [|discriminate]. intros [= <-].
    unfold grows. cbn [db_tables db_indexes db_rows db_seq db_wal].
    split; [split; [done|split; [|done]]|].
    + intros n Hin. rewrite lookup_insert_ne; [done|].
      intros <-. rewrite Hi in Hin. by destruct Hin.
    + rewrite lookup_insert_eq. repeat split; eauto.
Qed.


Lemma run_changes_app l1 l2 b :
  run_changes (l1 ++ l2) b
  = match run_changes l1 b with
    | (Ok _, b1) => run_changes l2 b1
    | (Raise e, b1) => (Raise e, b1)
    end.
Proof.
  revert b. induction l1 as [|f l1 IH]; intros b; [reflexivity|].
  cbn. destruct (f b); [apply IH|reflexivity].
Qed.

(** Whatever the outcome, the file has at least what it had. *)
Lemma run_changes_grows changes b :
  Forall (fun f => forall b b', f b = Ok b' -> grows b b' /\ db_wal b' = db_wal b)
    changes ->
  grows b (snd (run_changes changes b))
  /\ db_wal (snd (run_changes changes b)) = db_wal b.
Proof.
  intros Hall. revert b. induction Hall as [|f rest Hf _ IH]; intros b.
  - split; [apply grows_refl|done].
  - cbn. destruct (f b) as [b'|e] eqn:Hfb; [|split; [apply grows_refl|done]].
    destruct (Hf b b' Hfb) as [Hg Hw]. destruct (IH b') as [Hg' Hw'].
    split; [by eapply grows_trans|congruence].
Qed.

Lemma ddl_changes_grow :
  Forall (fun f => forall b b', f b = Ok b' -> grows b b' /\ db_wal b' = db_wal b)
    ddl_changes.
Proof.
  unfold ddl_changes. apply Forall_app. split; apply Forall_forall; intros f Hf.
  - apply list_elem_of_In, in_map_iff in Hf as (d & <- & _). intros b b' Hb.
    by destruct (create_table_spec d b b' Hb) as (? & _ & ? & _).
  - apply list_elem_of_In, in_map_iff in Hf as (d & <- & _). intros b b' Hb.
    by destruct (create_index_spec d b b' Hb) as (? & _ & ? & _).
Qed.

Lemma tables_created defs b b' :
  run_changes (List.map create_table defs) b = (Ok tt, b') ->
  grows b b' /\ db_indexes b' = db_indexes b /\ db_wal b' = db_wal b
  /\ forall d, d ∈ defs -> is_Some (db_tables b' !! td_name d).
Proof.
  revert b. induction defs as [|d defs IH]; intros b.
  - intros [= <-]. repeat split; try done. intros d Hd. by apply elem_of_nil in Hd.
  - cbn. destruct (create_table d b) as [b1|e] eqn:Hc; [|discriminate].
    intros Hrest. destruct (create_table_spec d b b1 Hc) as (Hg & Hi & Hw & Hd).
    destruct (IH b1 Hrest) as (Hg' & Hi' & Hw' & Hall).
    split; [by eapply grows_trans|]. split; [congruence|]. split; [congruence|].
    intros d' Hd'. apply elem_of_cons in Hd' as [->|Hd']; [|by apply Hall].
    destruct Hg' as (Ht & _). by rewrite (Ht _ Hd).
Qed.

Lemma indexes_created defs b b' :
  run_changes (List.map create_index defs) b = (Ok tt, b') ->
  grows b b' /\ db_tables b' = db_tables b /\ db_wal b' = db_wal b
  /\ forall d, d ∈ defs ->
       is_Some (db_tables b !! ix_table d)
       /\ db_tables b !! ix_name d = None
       /\ is_Some (db_indexes b' !! ix_name d).
Proof.
  revert b. induction defs as [|d defs IH]; intros b.
  - intros [= <-]. repeat split; try done. all: by apply elem_of_nil in H.
  - cbn. destruct (create_index d b) as [b1|e] eqn:Hc; [|discriminate].
    intros Hrest.
    destruct (create_index_spec d b b1 Hc) as (Hg & Ht & Hw & Hd1 & Hd2 & Hd3).
    destruct (IH b1 Hrest) as (Hg' & Ht' & Hw' & Hall).
    split; [by eapply grows_trans|]. split; [congruence|]. split; [congruence|].
    intros d' Hd'. apply elem_of_cons in Hd' as [->|Hd'].
    + split; [done|]. split; [done|].
      destruct Hg' as (_ & Hi & _). by rewrite (Hi _ Hd3).
    + rewrite <- Ht. by apply Hall.
Qed.

Lemma success_present b b' :
  run_changes ddl_changes b = (Ok tt, b') ->
  schema_present b' /\ grows b b' /\ db_wal b' = db_wal b.
Proof.
  unfold ddl_changes. rewrite run_changes_app.
  destruct (run_changes (List.map create_table table_defs) b) as [[[]|e] b1] eqn:H1;
    [|discriminate].
  intros H2.
  destruct (tables_created _ _ _ H1) as (Hg1 & Hi1 & Hw1 & Ht1).
  destruct (indexes_created _ _ _ H2) as (Hg2 & Ht2 & Hw2 & Hi2).
  split; [|split; [by eapply grows_trans|congruence]].
  split.
  - intros d Hd. rewrite Ht2. by apply Ht1.
  - intros d Hd. rewrite Ht2. by apply Hi2.
Qed.




(** ** The schema block on a world *)

Lemma changes_autocommit texts changes (c : connection) fs den quo cs out :
  Forall2 reads_as texts changes ->
  c_open c = true -> c_pending c = None ->
  forall b,
    execute_each (CursorOf (length cs)) texts
      (World (<[c_path c := DbFile b]> fs) den quo (cs ++ [c]) out)
    = (fst (run_changes changes b),
       World (<[c_path c := DbFile (snd (run_changes changes b))]> fs) den quo
         (cs ++ [c]) out).
Proof.
  intros Hall Hopen Hpend. induction Hall as [|t f texts changes Hr _ IH];
    intros b; [reflexivity|].
  cbn [execute_each run_changes]. unfold bind.
  unfold cursor_execute at 1, sqlite_cursor at 1, execute.
  cbn [cur_conn w_conns]. rewrite lookup_snoc, Hopen.
  assert (Hstep : forall stmt, parse t = Some stmt ->
            run_statement (length cs) c stmt [] = run_schema_change (length cs) c f ->
            match parse t with
            | Some stmt =>
                run_statement (length cs) c stmt []
                  (World (<[c_path c := DbFile b]> fs) den quo (cs ++ [c]) out)
            | None =>
                (Raise (SqliteError "syntax error"),
                 World (<[c_path c := DbFile b]> fs) den quo (cs ++ [c]) out)
            end
            = match f b with
              | Ok b' =>
                  (Ok tt, World (<[c_path c := DbFile b']> fs) den quo (cs ++ [c]) out)
              | Raise e =>
                  (Raise e, World (<[c_path c := DbFile b]> fs) den quo (cs ++ [c]) out)
              end).
  { intros stmt -> ->. unfold run_schema_change, current_image, save.
    rewrite Hpend. cbn [w_fs]. rewrite lookup_insert_eq. cbn [read_image].
    destruct (f b); [|reflexivity]. unfold set_fs. cbn.
    by rewrite insert_insert_eq. }
  destruct Hr as [t d Hp|t d Hp]; rewrite (Hstep _ Hp eq_refl).
  - destruct (create_table d b); [apply IH|reflexivity].
  - destruct (create_index d b); [apply IH|reflexivity].
Qed.

Lemma ddl_texts_read :
  Forall2 reads_as (effective InitDb.schema_statements) ddl_changes.
Proof.
  assert (He : effective InitDb.schema_statements
               = [ strip text_app_info; strip text_users; strip text_credentials;
                   strip text_shares; strip text_ekyc_sessions;
                   strip text_audit_logs; text_idx_users_email;
                   text_idx_users_username; text_idx_credentials_user_id;
                   text_idx_shares_credential_id;
                   text_idx_shares_shared_with_user_id; text_idx_ekyc_user_id;
                   text_idx_audit_user_id; text_idx_audit_created_at ])
    by (vm_compute; reflexivity).
  revert He. generalize (effective InitDb.schema_statements). intros l ->.
  unfold ddl_changes, table_defs, index_defs. cbn [List.map app].
  repeat (constructor;
          [first [apply reads_table | apply reads_index]; vm_compute; reflexivity|]).
  constructor.
Qed.

Lemma upsert_unprepared k v b e :
  prepare_upsert b = Some e -> upsert k v b = Raise e.
Proof. unfold upsert. by intros ->. Qed.

Ltac run_block :=
  repeat (progress (unfold put_conn, set_conns, set_fs, run_schema_change,
                      current_image, save, raise;
                    cbn -[parse upsert prepare_upsert run_changes _execute_many
                          ddl_changes set_wal block_outcome effective];
                    use_facts;
                    rewrite ?lookup_insert_eq, ?insert_insert_eq;
                    known_steps)).

(** The body of the [with] statement and its exit, once the connection
    is made on a readable image. *)
Lemma schema_body_runs p fs den quo cs out b0 :
  read_image (fs !! p) = Some b0 ->
  with_ (fun w => (Ok (length cs), w)) connection_exit (fun conn =>
    execute conn "PRAGMA foreign_keys = ON;" [] ;;
    execute conn "PRAGMA journal_mode = WAL;" [] ;;
    execute conn "PRAGMA synchronous = NORMAL;" [] ;;
    let cur := CursorOf conn in
    _execute_many cur InitDb.schema_statements ;;
    execute (cur_conn cur)
      "INSERT OR REPLACE INTO app_info (key, value) VALUES (?, ?)"
      ["project_name"; "database_postgres"] ;;
    execute (cur_conn cur)
      "INSERT OR REPLACE INTO app_info (key, value) VALUES (?, ?)"
      ["version"; "0.2.0"] ;;
    commit conn)
    (World fs den quo (cs ++ [new_connection p]) out)
  = (fst (block_outcome b0),
     World (<[p := DbFile (snd (block_outcome b0))]> fs) den quo
       (cs ++ [settled_connection p]) out).
Proof.
  intros Hb.
  unfold with_, bind, execute, connection_exit, commit, rollback.
  run_block.
  rewrite execute_many_each.
  rewrite (changes_autocommit _ _ (Connection p true true true None [])
             fs den quo cs out ddl_texts_read eq_refl eq_refl).
  unfold block_outcome.
  destruct (run_changes ddl_changes (set_wal b0)) as [[[]|e] b14];
    run_block; [|reflexivity].
  destruct (prepare_upsert b14) as [e|] eqn:Hp1.
  { rewrite (upsert_unprepared _ _ _ _ Hp1). run_block. reflexivity. }
  destruct (upsert "project_name" "database_postgres" b14) as [b15|e];
    run_block; [|reflexivity].
  destruct (prepare_upsert b15) as [e|] eqn:Hp2.
  { rewrite (upsert_unprepared _ _ _ _ Hp2). run_block. reflexivity. }
  destruct (upsert "version" "0.2.0" b15) as [b16|e]; run_block; reflexivity.
Qed.

Lemma with_entered {S X A} (enter : M S X) leave (body : X -> M S A) s x s1 :
  enter s = (Ok x, s1) ->
  with_ enter leave body s = with_ (fun w => (Ok x, w)) leave body s1.
Proof. unfold with_. by intros ->. Qed.

Lemma schema_block_existing p fs den quo cs out n b0 :
  fs !! p = Some n -> read_image (Some n) = Some b0 ->
  InitDb.schema_block p (World fs den quo cs out)
  = (fst (block_outcome b0),
     World (<[p := DbFile (snd (block_outcome b0))]> fs) den quo
       (cs ++ [settled_connection p]) out).
Proof.
  intros Hn Hb. unfold InitDb.schema_block.
  erewrite with_entered.
  - apply schema_body_runs. by rewrite Hn.
  - unfold connect. cbn [w_fs w_denied w_conns]. rewrite Hn.
    destruct n; [discriminate Hb|reflexivity..].
Qed.

Lemma schema_block_created p fs den quo cs out b0 :
  connect p (World fs den quo cs out)
  = (Ok (length cs),
     World (<[p := DbFile b0]> fs) den quo (cs ++ [new_connection p]) out) ->
  InitDb.schema_block p (World fs den quo cs out)
  = (fst (block_outcome b0),
     World (<[p := DbFile (snd (block_outcome b0))]> fs) den quo
       (cs ++ [settled_connection p]) out).
Proof.
  intros Hc. unfold InitDb.schema_block.
  rewrite (with_entered _ _ _ _ _ _ Hc).
  rewrite (schema_body_runs p _ den quo cs out b0)
    by (by rewrite lookup_insert_eq).
  by rewrite insert_insert_eq.
Qed.

Lemma schema_block_new p fs den quo cs out :
  fs !! p = None -> p ∉ den ->
  InitDb.schema_block p (World fs den quo cs out)
  = (fst (block_outcome empty_db),
     World (<[p := DbFile (snd (block_outcome empty_db))]> fs) den quo
       (cs ++ [settled_connection p]) out).
Proof.
  intros Hn Hd. apply schema_block_created.
  unfold connect. cbn [w_fs w_denied w_conns]. rewrite Hn.
  by rewrite (bool_decide_eq_false_2 _ Hd).
Qed.

Lemma schema_block_unopenable p fs den quo cs out :
  fs !! p = Some Directory \/ (fs !! p = None /\ p ∈ den) ->
  InitDb.schema_block p (World fs den quo cs out)
  = (Raise unable_to_open, World fs den quo cs out).
Proof.
  intros [Hn|[Hn Hd]]; unfold InitDb.schema_block, with_, connect;
    cbn [w_fs w_denied w_conns]; rewrite Hn; [reflexivity|].
  by rewrite (bool_decide_eq_true_2 _ Hd).
Qed.

Lemma schema_block_not_database p fs den quo cs out a t :
  fs !! p = Some (TextFile (String a t)) ->
  InitDb.schema_block p (World fs den quo cs out)
  = (Raise not_a_database,
     World fs den quo (cs ++ [with_foreign_keys (new_connection p)]) out).
Proof.
  intros Hn.
  unfold InitDb.schema_block, with_, connect, bind, execute, connection_exit,
    commit, rollback.
  run_block. reflexivity.
Qed.

(** ** Seeding *)

Lemma filter_within {A} (f g : A -> bool) (l : list A) :
  (forall x, f x = true -> g x = true) ->
  List.filter f (List.filter g l) = List.filter f l.
Proof.
  intros Hfg. induction l as [|x l IH]; [reflexivity|]. cbn.
  destruct (g x) eqn:Hg; cbn.
  - destruct (f x); by rewrite IH.
  - destruct (f x) eqn:Hf; [|exact IH]. apply Hfg in Hf. congruence.
Qed.

Lemma filter_without {A} (f g : A -> bool) (l : list A) :
  (forall x, g x = true -> f x = false) ->
  List.filter f (List.filter g l) = [].
Proof.
  intros Hfg. induction l as [|x l IH]; [reflexivity|]. cbn.
  destruct (g x) eqn:Hg; cbn; [|exact IH]. by rewrite (Hfg x Hg).
Qed.

Lemma upsert_spec k v b b' :
  upsert k v b = Ok b' ->
  db_tables b' = db_tables b /\ db_indexes b' = db_indexes b
  /\ db_wal b' = db_wal b
  /\ exists id,
       db_rows b' = List.filter (other_key k) (db_rows b) ++ [AppRow id k (Some v)].
Proof.
  unfold upsert. destruct (prepare_upsert b); [discriminate|].
  destruct (_ >=? _); [discriminate|]. intros [= <-]. cbn. eauto 10.
Qed.

Lemma upsert_rows_same k v b b' :
  upsert k v b = Ok b' -> exists id, rows_of k b' = [AppRow id k (Some v)].
Proof.
  intros Hu. destruct (upsert_spec _ _ _ _ Hu) as (_ & _ & _ & id & Hr).
  exists id. unfold rows_of. rewrite Hr, List.filter_app, filter_without.
  - cbn. by rewrite String.eqb_refl.
  - intros r. unfold other_key. by intros ->%negb_true_iff.
Qed.

Lemma upsert_rows_other k k' v b b' :
  upsert k v b = Ok b' -> k' <> k -> rows_of k' b' = rows_of k' b.
Proof.
  intros Hu Hne. destruct (upsert_spec _ _ _ _ Hu) as (_ & _ & _ & id & Hr).
  unfold rows_of. rewrite Hr, List.filter_app, filter_within.
  - cbn. apply String.eqb_neq in Hne. rewrite String.eqb_sym in Hne.
    rewrite Hne. apply app_nil_r.
  - intros r Hk. apply String.eqb_eq in Hk. unfold other_key. rewrite Hk.
    apply negb_true_iff. by apply String.eqb_neq.
Qed.

Lemma upsert_other_rows k v b b' :
  upsert k v b = Ok b' -> k = "project_name" \/ k = "version" ->
  other_rows b' = other_rows b.
Proof.
  intros Hu Hk. destruct (upsert_spec _ _ _ _ Hu) as (_ & _ & _ & id & Hr).
  unfold other_rows. rewrite Hr, List.filter_app, filter_within.
  - cbn. unfold other_key at 1 2. cbn [row_key].
    destruct Hk as [->| ->]; cbn; apply app_nil_r.
  - intros r Hr'. apply andb_true_iff in Hr' as [H1 H2].
    by destruct Hk as [->| ->].
Qed.

Lemma upsert_present k v b b' :
  upsert k v b = Ok b' -> schema_present b -> schema_present b'.
Proof.
  intros Hu. destruct (upsert_spec _ _ _ _ Hu) as (Ht & Hi & _).
  unfold schema_present. by rewrite Ht, Hi.
Qed.


(** ** What the block makes of an image *)

Lemma block_success b0 b :
  block_outcome b0 = (Ok tt, b) ->
  schema_present b /\ db_wal b = true
  /\ (forall n, is_Some (db_tables b0 !! n) -> db_tables b !! n = db_tables b0 !! n)
  /\ (forall n, is_Some (db_indexes b0 !! n) ->
                db_indexes b !! n = db_indexes b0 !! n)
  /\ other_rows b = other_rows b0
  /\ (exists id, rows_of "project_name" b
                 = [AppRow id "project_name" (Some "database_postgres")])
  /\ (exists id, rows_of "version" b = [AppRow id "version" (Some "0.2.0")]).
Proof.
  unfold block_outcome.
  destruct (run_changes ddl_changes (set_wal b0)) as [[[]|e] b14] eqn:Hd;
    [|discriminate].
  destruct (upsert "project_name" "database_postgres" b14) as [b15|e] eqn:H1;
    [|discriminate].
  destruct (upsert "version" "0.2.0" b15) as [b16|e] eqn:H2; [|discriminate].
  intros [= <-].
  destruct (success_present _ _ Hd) as (Hp & (Ht & Hi & Hr & _) & Hw).
  destruct (upsert_spec _ _ _ _ H1) as (Ht1 & Hi1 & Hw1 & _).
  destruct (upsert_spec _ _ _ _ H2) as (Ht2 & Hi2 & Hw2 & _).
  split; [by eapply upsert_present, upsert_present|].
  split; [by rewrite Hw2, Hw1, Hw|].
  split; [intros n Hn; rewrite Ht2, Ht1; by apply Ht|].
  split; [intros n Hn; rewrite Hi2, Hi1; by apply Hi|].
  split.
  { rewrite (upsert_other_rows _ _ _ _ H2), (upsert_other_rows _ _ _ _ H1)
      by auto.
    unfold other_rows. by rewrite Hr. }
  split.
  - destruct (upsert_rows_same _ _ _ _ H1) as [id Hid]. exists id.
    by rewrite (upsert_rows_other _ _ _ _ _ H2).
  - apply (upsert_rows_same _ _ _ _ H2).
Qed.

Lemma block_failure b0 e b :
  block_outcome b0 = (Raise e, b) -> grows b0 b.
Proof.
  unfold block_outcome.
  pose proof (run_changes_grows ddl_changes (set_wal b0) ddl_changes_grow)
    as [Hg _].
  assert (Hg0 : grows b0 (set_wal b0)) by (by repeat split).
  destruct (run_changes ddl_changes (set_wal b0)) as [[[]|e'] b14] eqn:Hd;
    cbn [snd] in Hg.
  - destruct (upsert "project_name" "database_postgres" b14) as [b15|e1].
    + destruct (upsert "version" "0.2.0" b15) as [b16|e2]; [discriminate|].
      intros [= _ <-]. by eapply grows_trans.
    + intros [= _ <-]. by eapply grows_trans.
  - intros [= _ <-]. by eapply grows_trans.
Qed.

(** Any outcome keeps what the image had of tables and indexes. *)
Lemma block_keeps b0 :
  (forall n, is_Some (db_tables b0 !! n) ->
             db_tables (snd (block_outcome b0)) !! n = db_tables b0 !! n)
  /\ (forall n, is_Some (db_indexes b0 !! n) ->
                db_indexes (snd (block_outcome b0)) !! n = db_indexes b0 !! n).
Proof.
  destruct (block_outcome b0) as [[[]|e] b] eqn:Hb; cbn [snd].
  - by destruct (block_success _ _ Hb) as (_ & _ & ? & ? & _).
  - by destruct (block_failure _ _ _ Hb) as (? & ? & _).
Qed.


Lemma schema_block_cases p w :
  match image_before p w with
  | Some b0 =>
      InitDb.schema_block p w
      = (fst (block_outcome b0),
         World (<[p := DbFile (snd (block_outcome b0))]> (w_fs w)) (w_denied w)
           (w_quota w) (w_conns w ++ [settled_connection p]) (w_stdout w))
  | None =>
      exists e tail,
        InitDb.schema_block p w
        = (Raise e, World (w_fs w) (w_denied w) (w_quota w) (w_conns w ++ tail)
                      (w_stdout w))
        /\ Forall idle tail /\ (length tail <= 1)%nat
  end.
Proof.
  destruct w as [fs den quo cs out]. unfold image_before. cbn [w_fs w_denied
    w_quota w_conns w_stdout].
  destruct (fs !! p) as [n|] eqn:Hn.
  - destruct (read_image (Some n)) as [b0|] eqn:Hb.
    + by apply schema_block_existing with n.
    + destruct n as [|[|a t]|b]; try discriminate Hb.
      * exists unable_to_open, []. rewrite app_nil_r.
        split; [apply schema_block_unopenable; by left|]. split; [constructor|].
        cbn. lia.
      * exists not_a_database, [with_foreign_keys (new_connection p)].
        split; [by apply schema_block_not_database with a t|].
        split; [|cbn; lia]. repeat constructor.
  - destruct (bool_decide (p ∈ den)) eqn:Hd.
    + apply bool_decide_eq_true in Hd. exists unable_to_open, [].
      rewrite app_nil_r.
      split; [apply schema_block_unopenable; by right|]. split; [constructor|].
      cbn. lia.
    + apply bool_decide_eq_false in Hd. by apply schema_block_new.
Qed.




(** ** The schema initializer *)

Lemma makedirs_outcome d w :
  (exists e, makedirs d w = (Raise e, w))
  \/ (makedirs d w = (Ok tt, w) /\ w_fs w !! d = Some Directory)
  \/ (makedirs d w = (Ok tt, set_fs (<[d := Directory]> (w_fs w)) w)
      /\ w_fs w !! d = None).
Proof.
  unfold makedirs. destruct (w_fs w !! d) as [[| |]|]; eauto.
  destruct (bool_decide _); eauto.
Qed.

Lemma schema_initializer_runs `{os_path} p w :
  InitDb.schema_initializer p w
  = match makedirs (dirname (abspath p)) w with
    | (Raise e, w0) => (Raise e, w0)
    | (Ok _, w0) =>
        match InitDb.schema_block p w0 with
        | (Ok _, w1) => (Ok (negb (bool_decide (is_Some (w_fs w !! p)))), w1)
        | (Raise e, w1) => (Raise e, w1)
        end
    end.
Proof.
  unfold InitDb.schema_initializer, bind, path_exists, ret.
  destruct (makedirs _ w) as [[[]|e] w0]; [|reflexivity].
  by destruct (InitDb.schema_block p w0) as [[[]|e] w1].
Qed.



Lemma initializer_connections `{os_path} p w :
  exists tail,
    w_conns (snd (InitDb.schema_initializer p w)) = w_conns w ++ tail
    /\ Forall idle tail /\ (length tail <= 1)%nat
    /\ (forall ft, fst (InitDb.schema_initializer p w) = Ok ft ->
                   tail = [settled_connection p]).
Proof.
  rewrite schema_initializer_runs. set (d := dirname (abspath p)).
  assert (Hblock : forall w0, w_conns w0 = w_conns w ->
    exists tail,
      w_conns (snd (match InitDb.schema_block p w0 with
                    | (Ok _, w1) =>
                        (Ok (negb (bool_decide (is_Some (w_fs w !! p)))), w1)
                    | (Raise e, w1) => (Raise e, w1)
                    end)) = w_conns w ++ tail
      /\ Forall idle tail /\ (length tail <= 1)%nat
      /\ (forall ft,
            fst (match InitDb.schema_block p w0 with
                 | (Ok _, w1) =>
                     (Ok (negb (bool_decide (is_Some (w_fs w !! p)))), w1)
                 | (Raise e, w1) => (Raise e, w1)
                 end) = Ok ft -> tail = [settled_connection p])).
  { intros w0 Hsame. pose proof (schema_block_cases p w0) as Hc.
    destruct (image_before p w0) as [b0|].
    - rewrite Hc. exists [settled_connection p].
      destruct (fst (block_outcome b0)) as [[]|e]; cbn [fst snd w_conns];
        rewrite Hsame; repeat split; try done; repeat constructor.
    - destruct Hc as (e & tail & -> & Hidle & Hlen). exists tail.
      cbn [fst snd w_conns]. rewrite Hsame. repeat split; try done. }
  destruct (makedirs_outcome d w) as [[e ->]|[[-> Hd]|[-> Hd]]].
  - exists []. cbn [fst snd]. rewrite app_nil_r. repeat split; try done.
    cbn. lia.
  - by apply Hblock.
  - by apply Hblock.
Qed.





(** C5 (as the code has it): on every exit path of [init_sqlite_db] the
    connections that existed are untouched and at most one is added; the
    added connection has no transaction in progress (it was committed on
    return, rolled back on an exception) but it is still open: nothing
    in the initializer closes it.  On the path that returns from the
    schema phase the connection is always there. *)
Theorem connection_left_open `{os_path} (db_path : string) (w : world) :
  exists tail,
    w_conns (snd (InitDb.init_sqlite_db db_path w)) = w_conns w ++ tail
    /\ Forall idle tail
    /\ (length tail <= 1)%nat
    /\ (forall ft, fst (InitDb.schema_initializer db_path w) = Ok ft ->
                   tail = [settled_connection db_path]).
Proof.
  destruct (initializer_connections db_path w) as (tail & Hc & Hidle & Hlen & Hok).
  exists tail. split; [|done].
  unfold InitDb.init_sqlite_db, bind.
  destruct (InitDb.schema_initializer db_path w) as [[ft|e] w1]; [|exact Hc].
  destruct (emitter_outcome db_path ft w1)
    as (w2 & ? & ? & ? & -> & _ & _ & _ & _ & _ & _ & _ & Hconns & _).
  cbn [snd] in *. congruence.
Qed.

(** C5 fails as stated: after a run that returns, and after a run that
    raises in the DDL, the connection the run made is open. *)
Lemma connection_closed_counterexample :
  fst (@InitDb.init_sqlite_db sample_paths "myapp.db" empty_world) = Ok tt
  /\ c_open <$> w_conns (snd (@InitDb.init_sqlite_db sample_paths "myapp.db"
                                 empty_world)) !! 0%nat = Some true
  /\ fst (@InitDb.init_sqlite_db sample_paths "myapp.db" legacy_world)
     = Raise (SqliteError "no such column: email")
  /\ c_open <$> w_conns (snd (@InitDb.init_sqlite_db sample_paths "myapp.db"
                                 legacy_world)) !! 0%nat = Some true.
Proof. repeat split; vm_compute; reflexivity. Qed.

Lemma validator_ignores_internal_tables_witness :
  fst (TestDb.main (World {[ TestDb.DB_NAME := DbFile crowded_db ]} ∅ ∅ [] []))
  = Ok 0.
Proof.
  apply (proj1 validator_ignores_internal_tables
           {[ TestDb.DB_NAME := DbFile crowded_db ]} ∅ ∅ [] []
           (DbFile crowded_db) crowded_db).
  - vm_compute. reflexivity.
  - reflexivity.
  - apply (bool_decide_unpack
             (TestDb.REQUIRED_TABLES ⊆ user_tables crowded_db)).
    vm_compute. exact I.
Defined.

(** ** The scripts at work *)

Example strip_statement :
  strip text_app_info
  = "CREATE TABLE IF NOT EXISTS app_info (
                id INTEGER PRIMARY KEY AUTOINCREMENT,
                key TEXT UNIQUE NOT NULL,
                value TEXT,
                created_at TIMESTAMP DEFAULT CURRENT_TIMESTAMP
            );".
Proof. vm_compute. reflexivity. Qed.

Example like_internal_names :
  like "sqlite_%" "sqlite_sequence" = true
  /\ like "sqlite_%" "SQLITE_STAT1" = true
  /\ like "sqlite_%" "sqlitex" = true
  /\ like "sqlite_%" "sqlite" = false
  /\ like "sqlite_%" "users" = false.
Proof. repeat split; vm_compute; reflexivity. Qed.

Example sorted_names :
  TestDb.sorted {[ "users"; "audit_logs"; "shares" ]}
  = ["audit_logs"; "shares"; "users"].
Proof. vm_compute. reflexivity. Qed.

(** A first run in an empty directory. *)
Example first_run :
  fst (@InitDb.main sample_paths empty_world) = Ok tt
  /\ w_stdout after_first_run
     = [ "Connection information saved to db_connection.txt";
         "Environment variables saved to .env";
         "Visualizer environment saved to db_visualizer/sqlite.env";
         ""; "SQLite setup complete!"; "Database: myapp.db";
         "Location: /srv/myapp.db"; "Initialized a new database file."; "" ]
  /\ db_rows (committed_image "myapp.db" after_first_run)
     = [ AppRow 1 "project_name" (Some "database_postgres");
         AppRow 2 "version" (Some "0.2.0") ]
  /\ TestDb.sorted (existing_tables (committed_image "myapp.db" after_first_run))
     = [ "app_info"; "audit_logs"; "credentials"; "ekyc_sessions"; "shares";
         "users" ]
  /\ TestDb.sorted (dom (db_indexes (committed_image "myapp.db" after_first_run)))
     = [ "idx_audit_created_at"; "idx_audit_user_id"; "idx_credentials_user_id";
         "idx_ekyc_user_id"; "idx_shares_credential_id";
         "idx_shares_shared_with_user_id"; "idx_users_email";
         "idx_users_username" ]
  /\ fst (TestDb.main after_first_run) = Ok 0.
Proof. repeat split; vm_compute; reflexivity. Qed.

(** A second run: the seed rows are written anew, under new ids. *)
Example second_run :
  fst (@InitDb.main sample_paths after_first_run) = Ok tt
  /\ db_rows (committed_image "myapp.db"
                (snd (@InitDb.main sample_paths after_first_run)))
     = [ AppRow 3 "project_name" (Some "database_postgres");
         AppRow 4 "version" (Some "0.2.0") ]
  /\ w_stdout (snd (@InitDb.main sample_paths after_first_run)) !! 16%nat
     = Some "Verified existing database and ensured schema is present.".
Proof. repeat split; vm_compute; reflexivity. Qed.

(** The validator on a file with users and credentials only, and where
    there is no file. *)
Example validator_reports :
  TestDb.main (World {[ "myapp.db" := DbFile two_tables ]} ∅ ∅ [] [])
  = (Ok 1, World {[ "myapp.db" := DbFile two_tables ]} ∅ ∅
             [validator_connection]
             [ "Missing tables: audit_logs, ekyc_sessions, shares";
               "Existing tables: credentials, users" ])
  /\ TestDb.main empty_world
     = (Ok 1, World ∅ ∅ ∅ [] ["Database file 'myapp.db' not found"]).
Proof. split; vm_compute; reflexivity. Qed.

(** The emitter when .env may not be written and the disk takes two
    writes to db_connection.txt. *)
Example emitter_warns :
  let w := World ∅ {[ ".env" ]} {[ "db_connection.txt" := 2%nat ]} [] [] in
  let '(r, w') := @InitDb.write_connection_files sample_paths "myapp.db" true w in
  r = Ok tt
  /\ take 3 (w_stdout w')
     = [ "Warning: Could not save connection info: [Errno 28] No space left on device";
         "Warning: Could not write .env: [Errno 13] Permission denied: '.env'";
         "Visualizer environment saved to db_visualizer/sqlite.env" ]
  /\ saved (@visualizer_env sample_paths "myapp.db") w'.
Proof. vm_compute. repeat split. Qed.

(** * Further properties *)

(** ** [_execute_many] and [strip] *)

Lemma lstrip_head s c r : lstrip s = String c r -> is_space c = false.
Proof.
  induction s as [|a s IH]; [discriminate|]. cbn.
  destruct (is_space a) eqn:Ha; [exact IH|]. by intros [= <- _].
Qed.

Lemma rstrip_head c r :
  is_space c = false -> exists r', rstrip (String c r) = String c r'.
Proof. intros Hc. cbn. rewrite Hc. destruct (rstrip r); eauto. Qed.

Lemma rstrip_last s c : last_char (rstrip s) = Some c -> is_space c = false.
Proof.
  induction s as [|a s IH]; [discriminate|]. cbn.
  destruct (rstrip s) as [|b t] eqn:Hr.
  - destruct (is_space a) eqn:Ha; [discriminate|]. cbn. by intros [= <-].
  - cbn. exact IH.
Qed.

Lemma strip_clean s : truthy (strip s) = true -> clean (strip s).
Proof.
  unfold strip. intros Ht. split; [by destruct (rstrip (lstrip s))|].
  split; [|apply rstrip_last].
  intros c r Hs. destruct (lstrip s) as [|a l] eqn:Hl; [discriminate Hs|].
  pose proof (lstrip_head _ _ _ Hl) as Ha.
  destruct (rstrip_head a l Ha) as [r' Hr]. rewrite Hr in Hs. congruence.
Qed.

Lemma effective_clean statements t : t ∈ effective statements -> clean t.
Proof.
  unfold effective. rewrite list_elem_of_In, filter_In, in_map_iff.
  intros [(stmt & <- & _) Ht]. by apply strip_clean.
Qed.

Lemma through_first_subset bad l t : t ∈ through_first bad l -> t ∈ l.
Proof.
  induction l as [|x l IH]; [done|]. cbn. destruct (bad x).
  - intros ->%list_elem_of_singleton. by left.
  - intros [->|Hin]%elem_of_cons; [by left|right; by apply IH].
Qed.

(** X1: whatever the list of statements, every text a cursor receives
    from [_execute_many] is non-empty and neither begins nor ends with a
    white-space character. *)
Theorem executed_texts_clean (bad : string -> bool)
    (statements : list (option string)) (t : string) :
  t ∈ snd (_execute_many (Build_recorder bad) statements []) -> clean t.
Proof.
  rewrite execute_many_each, recorder_each. cbn [snd app].
  intros Hin. apply (effective_clean statements), (through_first_subset bad), Hin.
Qed.

Lemma executed_texts_clean_witness : clean "SELECT 1;".
Proof.
  apply (executed_texts_clean (fun _ => false)
           [Some "  "; None; Some " SELECT 1; "] "SELECT 1;").
  vm_compute. left.
Defined.

Lemma blank_skipped stmt : blank stmt -> truthy (strip (default "" stmt)) = false.
Proof.
  destruct stmt as [t|]; [|reflexivity]. cbn [blank]. intros Hb.
  change (truthy (strip t) = false).
  rewrite strip_truthy. revert Hb. generalize (list_ascii_of_string t).
  intros l. induction l as [|c l IH]; [reflexivity|].
  cbn [forallb existsb]. intros [-> Hl]%andb_true_iff. cbn [negb orb].
  by apply IH.
Qed.

(** X2: running [_execute_many] on two lists one after the other is
    running it on their concatenation (an exception in the first part
    ends the run); and a list that holds only [None], empty and
    white-space entries is a no-op that returns normally, on every
    cursor and from every state. *)
Theorem execute_many_composes :
  (forall C S (HC : Cursor C S) (cursor : C) l1 l2 s,
     _execute_many cursor (l1 ++ l2) s
     = (_execute_many cursor l1 ;; _execute_many cursor l2) s)
  /\ (forall C S (HC : Cursor C S) (cursor : C) l s,
        Forall blank l -> _execute_many cursor l s = (Ok tt, s)).
Proof.
  split.
  - intros C S HC cursor l1 l2. induction l1 as [|stmt l1 IH]; intros s.
    + reflexivity.
    + cbn [app _execute_many].
      destruct (truthy (strip (default "" stmt))); cbn [negb].
      * unfold bind in *.
        destruct (cursor_execute cursor _ s) as [[[]|e] s']; [|reflexivity].
        apply IH.
      * apply IH.
  - intros C S HC cursor l s Hall. revert s.
    induction Hall as [|stmt l Hb _ IH]; intros s; [reflexivity|].
    cbn [_execute_many]. rewrite (blank_skipped _ Hb). apply IH.
Qed.

Lemma execute_many_composes_witness :
  _execute_many (Build_recorder (fun _ => false)) [Some "  "; None; Some ""] ["x"]
  = (Ok tt, ["x"]).
Proof.
  apply (proj2 execute_many_composes recorder (list string) recorder_cursor).
  repeat constructor.
Defined.

(** ** What the schema phase leaves alone *)

Lemma schema_block_frame p w :
  let w1 := snd (InitDb.schema_block p w) in
  w_stdout w1 = w_stdout w /\ w_denied w1 = w_denied w
  /\ w_quota w1 = w_quota w
  /\ forall k, k <> p -> w_fs w1 !! k = w_fs w !! k.
Proof.
  pose proof (schema_block_cases p w) as Hc.
  destruct (image_before p w) as [b0|].
  - rewrite Hc. cbn. repeat split. intros k Hk. by rewrite lookup_insert_ne.
  - destruct Hc as (e & tail & -> & _). by cbn.
Qed.

Lemma initializer_frame `{os_path} p w r w1 :
  InitDb.schema_initializer p w = (r, w1) ->
  w_stdout w1 = w_stdout w /\ w_denied w1 = w_denied w
  /\ w_quota w1 = w_quota w
  /\ (forall k, k <> p -> k <> dirname (abspath p) ->
                w_fs w1 !! k = w_fs w !! k)
  /\ (forall ft, r = Ok ft -> ft = negb (bool_decide (is_Some (w_fs w !! p)))).
Proof.
  rewrite schema_initializer_runs. set (d := dirname (abspath p)).
  assert (Hblock : forall w0,
    w_stdout w0 = w_stdout w -> w_denied w0 = w_denied w ->
    w_quota w0 = w_quota w ->
    (forall k, k <> d -> w_fs w0 !! k = w_fs w !! k) ->
    match InitDb.schema_block p w0 with
    | (Ok _, w1) => (Ok (negb (bool_decide (is_Some (w_fs w !! p)))), w1)
    | (Raise e, w1) => (Raise e, w1)
    end = (r, w1) ->
    w_stdout w1 = w_stdout w /\ w_denied w1 = w_denied w
    /\ w_quota w1 = w_quota w
    /\ (forall k, k <> p -> k <> d -> w_fs w1 !! k = w_fs w !! k)
    /\ (forall ft, r = Ok ft -> ft = negb (bool_decide (is_Some (w_fs w !! p))))).
  { intros w0 Ho Hd Hq Hk Hrun.
    destruct (schema_block_frame p w0) as (Ho' & Hd' & Hq' & Hk').
    destruct (InitDb.schema_block p w0) as [[[]|e] w2]; cbn [snd] in *;
      injection Hrun as <- <-.
    all: split; [congruence|]; split; [congruence|]; split; [congruence|].
    all: split; [intros k Hp Hkd; rewrite Hk' by done; by apply Hk|].
    - by intros ft [= <-].
    - discriminate. }
  destruct (makedirs_outcome d w) as [[e ->]|[[-> Hd]|[-> Hd]]].
  - intros [= <- <-]. repeat split; discriminate.
  - by apply Hblock.
  - apply Hblock; try done. intros k Hk. cbn. by rewrite lookup_insert_ne.
Qed.

Lemma init_outcomes `{os_path} p w :
  (exists ft w1 w' l1 l2 l3,
     InitDb.schema_initializer p w = (Ok ft, w1)
     /\ InitDb.init_sqlite_db p w = (Ok tt, w')
     /\ w_stdout w' = w_stdout w1 ++ [l1; l2; l3] ++ summary p ft
     /\ (forall k, k ∉ emitter_paths -> w_fs w' !! k = w_fs w1 !! k))
  \/ (exists e w1,
        InitDb.schema_initializer p w = (Raise e, w1)
        /\ InitDb.init_sqlite_db p w = (Raise e, w1)).
Proof.
  unfold InitDb.init_sqlite_db, bind.
  destruct (InitDb.schema_initializer p w) as [[ft|e] w1]; [left|right; eauto].
  destruct (emitter_outcome p ft w1)
    as (w' & l1 & l2 & l3 & Hrun & Hout & _ & _ & _ & _ & _ & _ & _ & Hk).
  exists ft, w1, w', l1, l2, l3. by rewrite Hrun.
Qed.

(** X3: when [init_sqlite_db] returns, it has printed three lines about
    the artifacts and then the summary, whose status line says
    "Initialized a new database file." exactly when nothing existed at
    the database path before the run (the check is made before the
    connection creates the file), and "Verified existing database and
    ensured schema is present." otherwise. *)
Theorem first_time_reported `{os_path} (db_path : string) (w w' : world) :
  InitDb.init_sqlite_db db_path w = (Ok tt, w') ->
  exists l1 l2 l3,
    w_stdout w'
    = w_stdout w
      ++ [ l1; l2; l3; ""; "SQLite setup complete!";
           "Database: " +:+ basename db_path;
           "Location: " +:+ abspath db_path;
           match w_fs w !! db_path with
           | None => "Initialized a new database file."
           | Some _ => "Verified existing database and ensured schema is present."
           end;
           "" ].
Proof.
  intros Hrun.
  destruct (init_outcomes db_path w)
    as [(ft & w1 & w2 & l1 & l2 & l3 & Hs & Hi & Hout & _)|(e & w1 & _ & Hi)];
    [|rewrite Hi in Hrun; discriminate].
  rewrite Hi in Hrun. injection Hrun as <-.
  destruct (initializer_frame _ _ _ _ Hs) as (Ho & _ & _ & _ & Hft).
  exists l1, l2, l3. rewrite Hout, Ho, (Hft ft eq_refl). unfold summary.
  by destruct (w_fs w !! db_path).
Qed.

Lemma first_time_reported_witness :
  exists l1 l2 l3,
    w_stdout (snd (@InitDb.init_sqlite_db sample_paths "myapp.db" after_first_run))
    = w_stdout after_first_run
      ++ [ l1; l2; l3; ""; "SQLite setup complete!";
           "Database: " +:+ @basename sample_paths "myapp.db";
           "Location: " +:+ @abspath sample_paths "myapp.db";
           match w_fs after_first_run !! "myapp.db" with
           | None => "Initialized a new database file."
           | Some _ => "Verified existing database and ensured schema is present."
           end;
           "" ].
Proof.
  apply (@first_time_reported sample_paths "myapp.db" after_first_run).
  vm_compute. reflexivity.
Defined.





(** ** A new database *)





(** ** The two scripts together *)






(** ** What a run leaves alone *)



(** X10: when the database path holds something that is not a database,
    a directory or a file with other content, and its parent directory is
    there or can be made, [init_sqlite_db] raises the engine's error,
    "unable to open database file" for a directory and "file is not a
    database" for a file; what was at the path stays as it was and nothing
    is printed. *)
Theorem unreadable_database_is_fatal `{os_path} (db_path : string) (w : world)
    (n : node) :
  w_fs w !! db_path = Some n ->
  read_image (Some n) = None ->
  dir_ready (Some (dirname (abspath db_path))) w ->
  exists w',
    InitDb.init_sqlite_db db_path w
    = (Raise (SqliteError match n with
                          | Directory => "unable to open database file"
                          | _ => "file is not a database"
                          end), w')
    /\ w_fs w' !! db_path = Some n
    /\ w_stdout w' = w_stdout w.
Proof.
  intros Hn Hr Hready. set (d := dirname (abspath db_path)) in *.
  assert (Hrun : exists w',
            InitDb.schema_initializer db_path w
            = (Raise (SqliteError match n with
                                  | Directory => "unable to open database file"
                                  | _ => "file is not a database"
                                  end), w')
            /\ w_fs w' !! db_path = Some n).
  { rewrite schema_initializer_runs. fold d.
    destruct w as [fs den quo cs out]. cbn [w_fs w_denied dir_ready] in *.
    assert (Hblock : forall fs0, fs0 !! db_path = Some n ->
              exists w',
                InitDb.schema_block db_path (World fs0 den quo cs out)
                = (Raise (SqliteError match n with
                                      | Directory => "unable to open database file"
                                      | _ => "file is not a database"
                                      end), w')
                /\ w_fs w' !! db_path = Some n).
    { intros fs0 H0. destruct n as [|[|a t]|b]; try discriminate Hr.
      - rewrite schema_block_unopenable by auto. by eexists.
      - rewrite (schema_block_not_database _ _ _ _ _ _ _ _ H0). by eexists. }
    unfold makedirs. cbn [w_fs w_denied].
    destruct Hready as [Hd|[Hd Hdd]]; rewrite Hd.
    - destruct (Hblock fs Hn) as (w' & -> & Hw'). by exists w'.
    - rewrite (bool_decide_eq_false_2 _ Hdd). unfold set_fs.
      cbn [w_fs w_denied w_quota w_conns w_stdout].
      destruct (Hblock (<[d := Directory]> fs)) as (w' & -> & Hw').
      + rewrite lookup_insert_ne; [done|]. intros E. rewrite E in Hd. congruence.
      + by exists w'. }
  destruct Hrun as (w' & Hrun & Hfile).
  destruct (init_outcomes db_path w)
    as [(? & ? & ? & ? & ? & ? & Hs & _)|(e & w1 & Hs & Hi)];
    rewrite Hs in Hrun; [discriminate|].
  injection Hrun as -> ->. exists w'. split; [done|]. split; [done|].
  by destruct (initializer_frame _ _ _ _ Hs) as (? & _).
Qed.

Lemma unreadable_database_is_fatal_witness :
  exists w',
    @InitDb.init_sqlite_db sample_paths "myapp.db"
      (World {[ "myapp.db" := TextFile "notes" ]} ∅ ∅ [] [])
    = (Raise (SqliteError "file is not a database"), w')
    /\ w_fs w' !! "myapp.db" = Some (TextFile "notes")
    /\ w_stdout w' = [].
Proof.
  apply (@unreadable_database_is_fatal sample_paths "myapp.db"
           (World {[ "myapp.db" := TextFile "notes" ]} ∅ ∅ [] [])
           (TextFile "notes")).
  - vm_compute. reflexivity.
  - reflexivity.
  - right. split; [vm_compute; reflexivity|].
    apply (bool_decide_unpack ("/srv" ∉ (∅ : gset string))).
    vm_compute. exact I.
Defined.

(** ** What is kept of a database that was there *)

Lemma block_other_rows b0 :
  other_rows (snd (block_outcome b0)) = other_rows b0.
Proof.
  destruct (block_outcome b0) as [[[]|e] b] eqn:Hb; cbn [snd].
  - by destruct (block_success _ _ Hb) as (_ & _ & _ & _ & ? & _).
  - destruct (block_failure _ _ _ Hb) as (_ & _ & Hr & _).
    unfold other_rows. by rewrite Hr.
Qed.


Lemma block_on_image p w b0 :
  read_image (w_fs w !! p) = Some b0 ->
  InitDb.schema_block p w
  = (fst (block_outcome b0),
     World (<[p := DbFile (snd (block_outcome b0))]> (w_fs w)) (w_denied w)
       (w_quota w) (w_conns w ++ [settled_connection p]) (w_stdout w)).
Proof.
  intros Hr. pose proof (schema_block_cases p w) as Hc.
  unfold image_before in Hc.
  destruct (w_fs w !! p) as [n|]; [|discriminate Hr].
  by rewrite Hr in Hc.
Qed.

(** X11: the schema phase never drops or alters what a database already
    held.  Run on a file that is a database, and whether it returns or
    raises, it leaves a database at the path in which every table and
    every index that existed has the definition it had, and the app_info
    rows under keys other than the two seed keys are the same rows. *)
Theorem existing_data_kept `{os_path} (db_path : string) (w : world) (b0 : db) :
  read_image (w_fs w !! db_path) = Some b0 ->
  exists b,
    read_image (w_fs (snd (InitDb.schema_initializer db_path w)) !! db_path)
    = Some b
    /\ (forall n, is_Some (db_tables b0 !! n) ->
                  db_tables b !! n = db_tables b0 !! n)
    /\ (forall n, is_Some (db_indexes b0 !! n) ->
                  db_indexes b !! n = db_indexes b0 !! n)
    /\ other_rows b = other_rows b0.
Proof.
  intros Hr. rewrite schema_initializer_runs.
  set (d := dirname (abspath db_path)).
  assert (Hblock : forall w0, read_image (w_fs w0 !! db_path) = Some b0 ->
            exists b,
              read_image
                (w_fs (snd match InitDb.schema_block db_path w0 with
                           | (Ok _, w1) =>
                               (Ok (negb (bool_decide (is_Some (w_fs w !! db_path)))),
                                w1)
                           | (Raise e, w1) => (Raise e, w1)
                           end) !! db_path) = Some b
              /\ (forall n, is_Some (db_tables b0 !! n) ->
                            db_tables b !! n = db_tables b0 !! n)
              /\ (forall n, is_Some (db_indexes b0 !! n) ->
                            db_indexes b !! n = db_indexes b0 !! n)
              /\ other_rows b = other_rows b0).
  { intros w0 H0. rewrite (block_on_image _ _ _ H0).
    exists (snd (block_outcome b0)). split.
    - destruct (fst (block_outcome b0)); cbn [snd w_fs];
        by rewrite lookup_insert_eq.
    - destruct (block_keeps b0) as [Ht Hi].
      split; [done|]. split; [done|]. apply block_other_rows. }
  destruct (makedirs_outcome d w) as [(e & Hm)|[(Hm & Hd)|(Hm & Hd)]];
    rewrite Hm.
  - exists b0. cbn [snd]. by repeat split.
  - by apply Hblock.
  - apply Hblock. destruct w as [fs den quo cs out]. unfold set_fs.
    cbn [w_fs] in *. rewrite lookup_insert_ne; [done|].
    intros E. rewrite <- E, Hd in Hr. discriminate Hr.
Qed.

Lemma existing_data_kept_witness :
  exists b,
    read_image
      (w_fs (snd (@InitDb.schema_initializer sample_paths "myapp.db" legacy_world))
         !! "myapp.db") = Some b
    /\ (forall n, is_Some (db_tables legacy_db !! n) ->
                  db_tables b !! n = db_tables legacy_db !! n)
    /\ (forall n, is_Some (db_indexes legacy_db !! n) ->
                  db_indexes b !! n = db_indexes legacy_db !! n)
    /\ other_rows b = other_rows legacy_db.
Proof.
  apply (@existing_data_kept sample_paths "myapp.db" legacy_world legacy_db).
  vm_compute. reflexivity.
Defined.



(** ** Tables older than the schema *)









(** ** The ids of the seed rows *)








